(** * pytop: a shallow embedding of the monitor and the process table

    Sources: [src/pytop/models.py], [src/pytop/monitor.py], [src/pytop/app.py].

    Python floats (CPU and memory percentages, the poll rate, byte sizes
    after division) are modelled by rationals [Q]; every float the code
    compares is an exact rational in the cases studied here.  Python
    strings are [String.string] (ASCII).  Python [None] is [option]. *)

From stdpp Require Import base list gmap sets strings.
From Stdlib Require Import QArith Qround Qabs Sorting.Sorted Sorting.Permutation.
From Stdlib Require Import Lqa.
From Stdlib Require Strings.String.
From Stdlib Require Import Strings.Ascii.

Open Scope Z_scope.

(* ------------------------------------------------------------------ *)
(** ** models.py *)

(** [ProcessSnapshot] (a frozen dataclass).  Dataclasses do not check
    field types: [command_line] is built from [info.get("name", "")],
    which may be Python [None]; the field is therefore [option string]. *)
Record ProcessSnapshot := mkProcessSnapshot {
  pid : Z;
  name : string;
  username : string;
  status : string;
  cpu_percent : Q;
  memory_percent : Q;
  memory_rss : Z;
  threads : Z;
  nice : Z;
  command_line : option string
}.

(* ------------------------------------------------------------------ *)
(** ** monitor.py *)

(** The [info] dict that [psutil.process_iter(attrs=attrs)] attaches to
    each process: every requested attribute is a key; an attribute that
    could not be read holds the [ad_value], [None].  [memory_info] is
    psutil's [pmem] named tuple, of which only [rss] is read; a [pmem] is
    a non-empty tuple, hence truthy. *)
Record ProcInfo := mkProcInfo {
  info_pid : Z;
  info_name : option string;
  info_username : option string;
  info_status : option string;
  info_cpu_percent : option Q;
  info_memory_percent : option Q;
  info_memory_info : option Z;
  info_num_threads : option Z;
  info_nice : option Z;
  info_cmdline : option (list string)
}.

(** Exceptions that can occur while a cycle is collected. *)
Inductive PsutilError := NoSuchProcess | AccessDenied | ZombieProcess.

Inductive Exc :=
| EPsutil (e : PsutilError)
| EOther.

(** A small exception monad for the code paths that may raise. *)
Inductive result (A : Type) :=
| Ok (a : A)
| Raise (e : Exc).
Arguments Ok {A} a.
Arguments Raise {A} e.

Global Instance result_ret : MRet result := fun A a => Ok a.
Global Instance result_bind : MBind result := fun A B k r =>
  match r with
  | Ok a => k a
  | Raise e => Raise e
  end.

(** Python truthiness: [v or d]. *)
Definition or_str (v : option string) (d : string) : string :=
  match v with
  | Some s => if String.eqb s EmptyString then d else s
  | None => d
  end.

Definition or_Q (v : option Q) (d : Q) : Q :=
  match v with
  | Some q => if Qeq_bool q 0 then d else q
  | None => d
  end.

Definition or_Z (v : option Z) (d : Z) : Z :=
  match v with
  | Some z => if Z.eqb z 0 then d else z
  | None => d
  end.

Definition or_list {A} (v : option (list A)) (d : list A) : list A :=
  match v with
  | Some (_ :: _ as l) => l
  | _ => d
  end.

(** The body of the [with proc.oneshot():] block of [_collect_processes]. *)
Definition build_snapshot (info : ProcInfo) : ProcessSnapshot :=
  let cmdline := or_list (info_cmdline info) [] in
  (* info.get("name", ""): the key is present, so its value is returned *)
  let command_line_ :=
    match cmdline with
    | [] => info_name info
    | _ => Some (String.concat " " cmdline)
    end in
  let memory_rss_ :=
    match info_memory_info info with
    | Some rss => rss
    | None => 0
    end in
  {| pid := info_pid info;
     name := or_str (info_name info) EmptyString;
     username := or_str (info_username info) EmptyString;
     status := or_str (info_status info) "?";
     cpu_percent := or_Q (info_cpu_percent info) 0;
     memory_percent := or_Q (info_memory_percent info) 0;
     memory_rss := memory_rss_;
     threads := or_Z (info_num_threads info) 0;
     nice := or_Z (info_nice info) 0;
     command_line := command_line_ |}.

(** What reading one process yields: its [info], or an exception. *)
Inductive ProcQuery :=
| QOk (info : ProcInfo)
| QErr (e : Exc).

(** [except (psutil.NoSuchProcess, psutil.AccessDenied, psutil.ZombieProcess)] *)
Definition skipped (e : Exc) : bool :=
  match e with
  | EPsutil _ => true
  | EOther => false
  end.

(** [_collect_processes]: the [for proc in psutil.process_iter(...)] loop. *)
Fixpoint collect_processes (qs : list ProcQuery) : result (list ProcessSnapshot) :=
  match qs with
  | [] => Ok []
  | QOk info :: rest =>
      ps ← collect_processes rest; Ok (build_snapshot info :: ps)
  | QErr e :: rest =>
      if skipped e then collect_processes rest else Raise e
  end.

(** [SystemSnapshot]; its [memory_percent] field is named
    [sys_memory_percent] here, the projection name being taken by
    [ProcessSnapshot]. *)
Record SystemSnapshot := mkSystemSnapshot {
  cpu_percent_per_core : list Q;
  memory_total : Z;
  memory_used : Z;
  sys_memory_percent : Q;
  swap_total : Z;
  swap_used : Z;
  swap_percent : Q;
  load_avg : Q * Q * Q;
  uptime_seconds : Q;
  processes : list ProcessSnapshot
}.

(** What the system-wide psutil calls of one cycle return, and the
    outcome of reading each process enumerated by [process_iter]. *)
Record Readings := mkReadings {
  r_cpu_percents : list Q;
  r_mem_total : Z;
  r_mem_used : Z;
  r_mem_percent : Q;
  r_swap_total : Z;
  r_swap_used : Z;
  r_swap_percent : Q;
  r_load_avg : Q * Q * Q;
  r_time : Q;
  r_boot_time : Q;
  r_queries : list ProcQuery
}.

(** [collections.deque(maxlen=...).append] as CPython does it: append on
    the right, then pop on the left when the length exceeds [maxlen]. *)
Definition deque_append {A} (maxlen : nat) (h : list A) (x : A) : list A :=
  let b := h ++ [x] in
  if Nat.ltb maxlen (length b) then drop 1 b else b.

Definition HISTORY_MAXLEN : nat := 60.

(** The state of a [SystemMonitor] together with the threads alive in the
    process.  [queue] is the [Queue] shared with the application;
    [thread] is [self._thread], a thread id; [alive] lists the ids of the
    threads alive; [next_tid] is the id the next thread will get. *)
Record SystemMonitor := mkSystemMonitor {
  queue : list SystemSnapshot;
  poll_rate_ : Q;
  stop_event : bool;
  thread : option nat;
  cpu_history : list (list Q);
  alive : list nat;
  next_tid : nat
}.

(** [SystemMonitor.__init__] *)
Definition SystemMonitor_init (update_queue : list SystemSnapshot) (poll_rate : Q)
  : SystemMonitor :=
  {| queue := update_queue; poll_rate_ := poll_rate; stop_event := false;
     thread := None; cpu_history := []; alive := []; next_tid := 0%nat |}.

(** The [poll_rate] property getter. *)
Definition poll_rate (st : SystemMonitor) : Q := poll_rate_ st.

(** Python [max(0.1, value)]: the first argument unless the second is larger. *)
Definition py_max (a b : Q) : Q := if Qlt_le_dec a b then b else a.

(** The [poll_rate] property setter. *)
Definition set_poll_rate (st : SystemMonitor) (value : Q) : SystemMonitor :=
  {| queue := queue st; poll_rate_ := py_max (1#10) value;
     stop_event := stop_event st; thread := thread st;
     cpu_history := cpu_history st; alive := alive st; next_tid := next_tid st |}.

(** [is_running]: [self._thread is not None and self._thread.is_alive()]. *)
Definition is_running (st : SystemMonitor) : bool :=
  match thread st with
  | Some t => bool_decide (t ∈ alive st)
  | None => false
  end.

(** [start]: a new daemon thread when none is running. *)
Definition start (st : SystemMonitor) : SystemMonitor :=
  if is_running st then st
  else {| queue := queue st; poll_rate_ := poll_rate_ st;
          stop_event := false; thread := Some (next_tid st);
          cpu_history := cpu_history st;
          alive := next_tid st :: alive st; next_tid := S (next_tid st) |}.

(** [stop(timeout)]: set the event, join with a timeout, drop the thread.
    [joined] tells whether the worker ended before the timeout elapsed. *)
Definition stop (joined : bool) (st : SystemMonitor) : SystemMonitor :=
  match thread st with
  | Some t =>
      {| queue := queue st; poll_rate_ := poll_rate_ st; stop_event := true;
         thread := None; cpu_history := cpu_history st;
         alive := if joined then filter (fun u => u ≠ t) (alive st) else alive st;
         next_tid := next_tid st |}
  | None =>
      {| queue := queue st; poll_rate_ := poll_rate_ st; stop_event := true;
         thread := thread st; cpu_history := cpu_history st;
         alive := alive st; next_tid := next_tid st |}
  end.

(** A worker thread returning from [_poll_loop] after seeing the event. *)
Definition worker_exit (t : nat) (st : SystemMonitor) : SystemMonitor :=
  {| queue := queue st; poll_rate_ := poll_rate_ st; stop_event := stop_event st;
     thread := thread st; cpu_history := cpu_history st;
     alive := filter (fun u => u ≠ t) (alive st); next_tid := next_tid st |}.

(** [Queue.put] *)
Definition put (s : SystemSnapshot) (q : list SystemSnapshot) : list SystemSnapshot :=
  q ++ [s].

Definition with_queue (st : SystemMonitor) (q : list SystemSnapshot) : SystemMonitor :=
  {| queue := q; poll_rate_ := poll_rate_ st; stop_event := stop_event st;
     thread := thread st; cpu_history := cpu_history st;
     alive := alive st; next_tid := next_tid st |}.

(** [_collect_snapshot]: the CPU sample is appended to the history before
    the processes are read, so it stays there even if the cycle raises. *)
Definition collect_snapshot (r : Readings) (st : SystemMonitor)
  : SystemMonitor * result SystemSnapshot :=
  let cpu_percents := r_cpu_percents r in
  let st1 :=
    {| queue := queue st; poll_rate_ := poll_rate_ st; stop_event := stop_event st;
       thread := thread st;
       cpu_history := deque_append HISTORY_MAXLEN (cpu_history st) cpu_percents;
       alive := alive st; next_tid := next_tid st |} in
  (st1,
   processes ← collect_processes (r_queries r);
   Ok {| cpu_percent_per_core := cpu_percents;
         memory_total := r_mem_total r; memory_used := r_mem_used r;
         sys_memory_percent := r_mem_percent r;
         swap_total := r_swap_total r; swap_used := r_swap_used r;
         swap_percent := r_swap_percent r; load_avg := r_load_avg r;
         uptime_seconds := r_time r - r_boot_time r;
         processes := processes |}).

(** One iteration of the [while] loop of [_poll_loop], up to the wait:
    [try: snapshot = ...; self._queue.put(snapshot) except Exception: pass]. *)
Definition poll_iteration (r : Readings) (st : SystemMonitor) : SystemMonitor :=
  let '(st1, res) := collect_snapshot r st in
  match res with
  | Ok snapshot => with_queue st1 (put snapshot (queue st1))
  | Raise _ => st1
  end.

(** [_poll_loop], run over the readings of successive cycles; it also
    returns the timeouts passed to [self._stop_event.wait]. *)
Fixpoint poll_loop (rs : list Readings) (st : SystemMonitor)
  : SystemMonitor * list Q :=
  match rs with
  | [] => (st, [])
  | r :: rest =>
      if stop_event st then (st, [])
      else
        let st1 := poll_iteration r st in
        let '(st2, waits) := poll_loop rest st1 in
        (st2, poll_rate_ st1 :: waits)
  end.

(** [get_cpu_history]: [list(self._cpu_history)]. *)
Definition get_cpu_history (st : SystemMonitor) : list (list Q) := cpu_history st.

(** The lifecycle of a monitor: the application thread calls [start],
    [stop] or changes the poll rate, the worker runs cycles, and a worker
    that saw the stop event returns. *)
Inductive monitor_step : SystemMonitor -> SystemMonitor -> Prop :=
| ms_start st : monitor_step st (start st)
| ms_stop joined st : monitor_step st (stop joined st)
| ms_set_poll_rate v st : monitor_step st (set_poll_rate st v)
| ms_cycle r st : monitor_step st (poll_iteration r st)
| ms_exit t st : stop_event st = true -> t ∈ alive st -> monitor_step st (worker_exit t st).

Definition monitor_reachable (q : list SystemSnapshot) (rate : Q) (st : SystemMonitor) : Prop :=
  rtc monitor_step (SystemMonitor_init q rate) st.

(* ------------------------------------------------------------------ *)
(** ** app.py: [format_bytes] *)

(** Decimal digits of a non-negative integer. *)
Definition digit_char (d : Z) : Ascii.ascii :=
  Ascii.ascii_of_nat (48 + Z.to_nat d).

Fixpoint digits_aux (fuel : nat) (n : Z) (acc : string) : string :=
  match fuel with
  | O => acc
  | S f =>
      let acc' := String (digit_char (n mod 10)) acc in
      if n <? 10 then acc' else digits_aux f (n / 10) acc'
  end.

Definition digits (n : Z) : string :=
  digits_aux (S (Z.to_nat (Z.log2 n))) n EmptyString.

(** [str(n)] for an integer. *)
Definition str_Z (n : Z) : string :=
  if n <? 0 then String "-"%char (digits (- n)) else digits n.

(** Right alignment in a field of [width] characters. *)
Definition pad_left (width : nat) (s : string) : string :=
  String.append (String.concat EmptyString (repeat " " (width - String.length s))) s.

(** Rounding to an integer, ties to even: Python's float formatting rounds
    the exact value of the float correctly, half to even. *)
Definition round_half_even (x : Q) : Z :=
  let f := Qfloor x in
  let r := (x - inject_Z f)%Q in
  if Qlt_le_dec r (1#2) then f
  else if Qeq_dec r (1#2) then (if Z.even f then f else f + 1)
  else f + 1.

(** [format(x, ".1f")]: the sign follows [x] itself, so a negative value
    that rounds to zero prints as [-0.0]. *)
Definition fmt_1f (x : Q) : string :=
  let n := round_half_even (Qabs x * 10) in
  let body := String.append (digits (n / 10)) (String "."%char (String (digit_char (n mod 10)) EmptyString)) in
  if Qlt_le_dec x 0 then String "-"%char body else body.

(** A Python number: [size] starts as an [int] and becomes a [float]
    after the first [size / 1024]. *)
Inductive PyNum := PInt (z : Z) | PFloat (q : Q).

Definition num_lt (x : PyNum) (c : Z) : bool :=
  match x with
  | PInt z => z <? c
  | PFloat q => if Qlt_le_dec q (inject_Z c) then true else false
  end.

Definition num_div (x : PyNum) (c : Z) : PyNum :=
  match x with
  | PInt z => PFloat (inject_Z z / inject_Z c)
  | PFloat q => PFloat (q / inject_Z c)
  end.

Definition num_Q (x : PyNum) : Q :=
  match x with
  | PInt z => inject_Z z
  | PFloat q => q
  end.

(** [f"{size:5d}"]: only defined on an [int] (a [float] raises [ValueError]). *)
Definition fmt_5d (x : PyNum) : result string :=
  match x with
  | PInt z => Ok (pad_left 5 (str_Z z))
  | PFloat _ => Raise EOther
  end.

(** [f"{size:5.1f}"] *)
Definition fmt_5_1f (x : PyNum) : string := pad_left 5 (fmt_1f (num_Q x)).

(** The [for unit in [...]] loop of [format_bytes]. *)
Fixpoint format_bytes_loop (units : list string) (size : PyNum) : result string :=
  match units with
  | [] => Ok (String.append (fmt_1f (num_Q size)) "P")
  | unit :: rest =>
      if num_lt size 1024 then
        if String.eqb unit "B" then s ← fmt_5d size; Ok (String.append s unit)
        else Ok (String.append (fmt_5_1f size) unit)
      else format_bytes_loop rest (num_div size 1024)
  end.

Definition format_bytes (size : Z) : result string :=
  format_bytes_loop ["B"; "K"; "M"; "G"; "T"] (PInt size).

(* ------------------------------------------------------------------ *)
(** ** app.py: [SortKey] and [ProcessTable] *)

(** [class SortKey(Enum)], in definition order. *)
Inductive SortKey := CPU | MEM | PID | USER.

Global Instance SortKey_eq_dec : EqDecision SortKey.
Proof. solve_decision. Defined.

(** [list(SortKey)] *)
Definition SortKey_members : list SortKey := [CPU; MEM; PID; USER].

(** [list.index]: position of the first occurrence. *)
Fixpoint list_index {A} `{EqDecision A} (x : A) (l : list A) : nat :=
  match l with
  | [] => 0
  | y :: l' => if decide (x = y) then 0 else S (list_index x l')
  end.

(** [str.lower] on ASCII text. *)
Definition ascii_lower (c : Ascii.ascii) : Ascii.ascii :=
  let n := Ascii.nat_of_ascii c in
  if (Nat.leb 65 n && Nat.leb n 90)%bool then Ascii.ascii_of_nat (n + 32) else c.

Fixpoint str_lower (s : string) : string :=
  match s with
  | EmptyString => EmptyString
  | String c s' => String (ascii_lower c) (str_lower s')
  end.

(** A sort key value: a float, an int or a str, compared with [<]. *)
Inductive KeyVal := KQ (q : Q) | KZ (z : Z) | KS (s : string).

Definition key_lt (a b : KeyVal) : bool :=
  match a, b with
  | KQ x, KQ y => if Qlt_le_dec x y then true else false
  | KZ x, KZ y => x <? y
  | KS x, KS y => String.ltb x y
  | _, _ => false
  end.

(** The [key_func] table of [_sort_processes]. *)
Definition key_func (k : SortKey) (p : ProcessSnapshot) : KeyVal :=
  match k with
  | CPU => KQ (cpu_percent p)
  | MEM => KQ (memory_percent p)
  | PID => KZ (pid p)
  | USER => KS (str_lower (username p))
  end.

(** [sorted(xs, key=key, reverse=reverse)]: a stable sort.  With
    [reverse=True] the order is reversed while equal elements keep their
    order; [x] is placed after [y] exactly when [y] must precede it. *)
Definition precedes {A} (key : A -> KeyVal) (reverse : bool) (y x : A) : bool :=
  if reverse then key_lt (key x) (key y) else key_lt (key y) (key x).

Fixpoint sorted_insert {A} (key : A -> KeyVal) (reverse : bool) (x : A) (l : list A) : list A :=
  match l with
  | [] => [x]
  | y :: l' =>
      if precedes key reverse y x then y :: sorted_insert key reverse x l'
      else x :: y :: l'
  end.

Fixpoint py_sorted {A} (key : A -> KeyVal) (reverse : bool) (l : list A) : list A :=
  match l with
  | [] => []
  | x :: l' => sorted_insert key reverse x (py_sorted key reverse l')
  end.

(** A row operation on the [DataTable]. *)
Inductive TableOp :=
| RemoveRow (pid : Z)
| UpdateRow (p : ProcessSnapshot)
| AddRow (p : ProcessSnapshot).

(** The state of a [ProcessTable]. *)
Record ProcessTable := mkProcessTable {
  current_pids : gset Z;
  sort_key : SortKey;
  sort_reverse : bool
}.

(** [ProcessTable.__init__] *)
Definition ProcessTable_init : ProcessTable :=
  {| current_pids := ∅; sort_key := CPU; sort_reverse := true |}.

(** [cycle_sort]: returns the new state and the key it returns. *)
Definition cycle_sort (t : ProcessTable) : ProcessTable * SortKey :=
  let keys := SortKey_members in
  let current_index := list_index (sort_key t) keys in
  let next_index := Nat.modulo (current_index + 1) (length keys) in
  let k := default CPU (keys !! next_index) in
  ({| current_pids := current_pids t; sort_key := k;
      sort_reverse := bool_decide (k ∈ [CPU; MEM]) |}, k).

(** [_sort_processes] *)
Definition sort_processes (t : ProcessTable) (ps : list ProcessSnapshot) : list ProcessSnapshot :=
  py_sorted (key_func (sort_key t)) (sort_reverse t) ps.

(** [update_processes]: the row operations it issues, in order, and the
    new state.  The removals are issued in the iteration order of the set
    [self._current_pids - new_pids], here that of [elements]. *)
Definition update_processes (t : ProcessTable) (ps : list ProcessSnapshot)
  : list TableOp * ProcessTable :=
  let sorted_processes := sort_processes t ps in
  let new_pids : gset Z := list_to_set (pid <$> sorted_processes) in
  let pids_to_remove := current_pids t ∖ new_pids in
  let removals := RemoveRow <$> elements pids_to_remove in
  let rows := (fun proc =>
                 if decide (pid proc ∈ current_pids t) then UpdateRow proc else AddRow proc)
              <$> sorted_processes in
  (removals ++ rows,
   {| current_pids := new_pids; sort_key := sort_key t; sort_reverse := sort_reverse t |}).

(* ------------------------------------------------------------------ *)
(** ** app.py: [PytopApp] *)

(** The consumer side: what the header shows, the process table, and the
    row operations the table received so far. *)
Record PytopApp := mkPytopApp {
  header : option SystemSnapshot;
  table : ProcessTable;
  table_ops : list TableOp
}.

(** [_update_ui] *)
Definition update_ui (s : SystemSnapshot) (a : PytopApp) : PytopApp :=
  let '(ops, t') := update_processes (table a) (processes s) in
  {| header := Some s; table := t'; table_ops := table_ops a ++ ops |}.

(** The [while True: snapshot = self._update_queue.get_nowait()] loop,
    which stops at [Empty]; returns the last snapshot read and the queue. *)
Fixpoint drain (q : list SystemSnapshot) (snapshot : option SystemSnapshot)
  : option SystemSnapshot * list SystemSnapshot :=
  match q with
  | [] => (snapshot, [])
  | s :: q' => drain q' (Some s)
  end.

(** [_check_for_updates], on the queue it shares with the monitor. *)
Definition check_for_updates (q : list SystemSnapshot) (a : PytopApp)
  : list SystemSnapshot * PytopApp :=
  let '(snapshot, q') := drain q None in
  match snapshot with
  | Some s => (q', update_ui s a)
  | None => (q', a)
  end.

(* ------------------------------------------------------------------ *)
(** ** app.py: the rows of the [DataTable] *)

(** The nine cells of a row, in column order: PID, USER, NI, S, CPU%,
    MEM%, RES, THR, Command. *)
Record Row := mkRow {
  c_pid : string;
  c_user : string;
  c_nice : string;
  c_status : string;
  c_cpu : string;
  c_mem : string;
  c_rss : string;
  c_threads : string;
  c_command : string
}.

(** [s[:n]] on a [str]. *)
Definition slice (s : string) (n : nat) : string := String.substring 0 n s.

(** [v[:n]] where [v] may be [None]: slicing [None] raises [TypeError]. *)
Definition slice_opt (v : option string) (n : nat) : result string :=
  match v with
  | Some s => Ok (slice s n)
  | None => Raise EOther
  end.

(** The argument list [_add_row] passes to [table.add_row], evaluated
    left to right; an exception in it aborts the call. *)
Definition render_row (proc : ProcessSnapshot) : result Row :=
  rss ← format_bytes (memory_rss proc);
  cmd ← slice_opt (command_line proc) 50;
  Ok {| c_pid := str_Z (pid proc); c_user := slice (username proc) 10;
        c_nice := str_Z (nice proc); c_status := status proc;
        c_cpu := fmt_5_1f (PFloat (cpu_percent proc));
        c_mem := fmt_5_1f (PFloat (memory_percent proc));
        c_rss := rss; c_threads := str_Z (threads proc); c_command := cmd |}.

(** The rows of the Textual [DataTable], by row key.  The row key is
    [str(proc.pid)]; distinct ints have distinct [str], so rows are indexed
    here by the pid itself.  [add_row] with a key already present raises
    [DuplicateKey]; [update_cell] and [remove_row] on an absent key raise. *)
Abbreviation DataTable := (gmap Z Row).

(** [table.remove_row(str(pid))] inside [try ... except Exception: pass]:
    an absent key raises, which is caught, and the table is unchanged. *)
Definition table_remove_row (T : DataTable) (k : Z) : DataTable := delete k T.

(** [_add_row]: the arguments are computed first; [add_row] raises on a
    duplicate key; any exception is caught. *)
Definition table_add_row (T : DataTable) (proc : ProcessSnapshot) : DataTable :=
  match render_row proc with
  | Raise _ => T
  | Ok r =>
      match T !! pid proc with
      | Some _ => T
      | None => <[pid proc := r]> T
      end
  end.

(** [_update_row]: nine [update_cell] calls in order inside one [try]; the
    first raises when the row is absent; the cells set before an exception
    (raised by [format_bytes] or by [proc.command_line[:50]]) stay set. *)
Definition table_update_row (T : DataTable) (proc : ProcessSnapshot) : DataTable :=
  match T !! pid proc with
  | None => T
  | Some r =>
      let r6 := {| c_pid := str_Z (pid proc); c_user := slice (username proc) 10;
                   c_nice := str_Z (nice proc); c_status := status proc;
                   c_cpu := fmt_5_1f (PFloat (cpu_percent proc));
                   c_mem := fmt_5_1f (PFloat (memory_percent proc));
                   c_rss := c_rss r; c_threads := c_threads r;
                   c_command := c_command r |} in
      match format_bytes (memory_rss proc) with
      | Raise _ => <[pid proc := r6]> T
      | Ok rss =>
          let r8 := {| c_pid := c_pid r6; c_user := c_user r6; c_nice := c_nice r6;
                       c_status := c_status r6; c_cpu := c_cpu r6; c_mem := c_mem r6;
                       c_rss := rss; c_threads := str_Z (threads proc);
                       c_command := c_command r |} in
          match slice_opt (command_line proc) 50 with
          | Raise _ => <[pid proc := r8]> T
          | Ok cmd =>
              <[pid proc := {| c_pid := c_pid r8; c_user := c_user r8;
                               c_nice := c_nice r8; c_status := c_status r8;
                               c_cpu := c_cpu r8; c_mem := c_mem r8;
                               c_rss := c_rss r8; c_threads := c_threads r8;
                               c_command := cmd |}]> T
          end
      end
  end.

(** The effect of one row operation of [update_processes] on the table. *)
Definition apply_op (T : DataTable) (op : TableOp) : DataTable :=
  match op with
  | RemoveRow k => table_remove_row T k
  | UpdateRow proc => table_update_row T proc
  | AddRow proc => table_add_row T proc
  end.

Definition apply_ops (T : DataTable) (ops : list TableOp) : DataTable :=
  fold_left apply_op ops T.

(* ------------------------------------------------------------------ *)
(** ** app.py: [HeaderStats] *)

(** Python [int(x)] on a float: truncation toward zero. *)
Definition py_int (x : Q) : Z :=
  if Qlt_le_dec x 0 then - Qfloor (- x) else Qfloor x.

(** Python [x // y] and [x % y] on floats ([y > 0]): floor division and the
    remainder of the same sign as [y]. *)
Definition py_floordiv (x y : Q) : Q := inject_Z (Qfloor (x / y)).
Definition py_mod (x y : Q) : Q := x - y * py_floordiv x y.

(** The uptime fields computed in [_get_mem_info]. *)
Definition uptime_fields (uptime : Q) : Z * Z * Z * Z :=
  let days := py_int (py_floordiv uptime 86400) in
  let hours := py_int (py_floordiv (py_mod uptime 86400) 3600) in
  let minutes := py_int (py_floordiv (py_mod uptime 3600) 60) in
  let seconds := py_int (py_mod uptime 60) in
  (days, hours, minutes, seconds).



(** A bar of [HeaderStats]: the ["[green]█[/green]"] (or cyan, yellow)
    segment repeated [bar_len] times, then ["[dim]░[/dim]"] repeated
    [20 - bar_len] times; [str * n] is empty for [n <= 0]. *)
Inductive BarCell := Filled | Unfilled.

Definition bar (bar_len : Z) : list BarCell :=
  repeat Filled (Z.to_nat bar_len) ++ repeat Unfilled (Z.to_nat (20 - bar_len)).

(** [bar_len = min(int(usage / 5), 20)] of [_get_cpu_info] and of the
    memory bar. *)
Definition usage_bar_len (usage : Q) : Z := Z.min (py_int (usage / 5)) 20.

(** The swap bar length: [int(percent / 5) if swap_total > 0 else 0], capped. *)
Definition swap_bar_len (swap_total : Z) (swap_percent : Q) : Z :=
  Z.min (if 0 <? swap_total then py_int (swap_percent / 5) else 0) 20.

(* ------------------------------------------------------------------ *)
(** ** Equality of sort key values *)

Global Instance Q_eq_dec : EqDecision Q.
Proof. solve_decision. Defined.

Global Instance KeyVal_eq_dec : EqDecision KeyVal.
Proof. solve_decision. Defined.

(** The processes of a cycle that psutil could read, in enumeration order. *)
Definition ok_infos (qs : list ProcQuery) : list ProcInfo :=
  omap (fun q => match q with QOk info => Some info | QErr _ => None end) qs.

(** Whether reading some process of a cycle raised an exception other than
    the three psutil ones [_collect_processes] catches. *)
Definition has_other (qs : list ProcQuery) : bool :=
  existsb (fun q => match q with QErr EOther => true | _ => false end) qs.

(* ================================================================== *)
(** * Properties *)

(** Publishing a sequence of snapshots into the queue, in order. *)
Definition publishes (ps q : list SystemSnapshot) : list SystemSnapshot :=
  fold_left (fun q s => put s q) ps q.

(** A table after [n] calls of [cycle_sort] from the initial state. *)
Definition table_after_cycles (n : nat) : ProcessTable :=
  Nat.iter n (fun t => fst (cycle_sort t)) ProcessTable_init.

(** A process with the given pid and username and no other data. *)
Definition sample_proc (p : Z) (user : string) : ProcessSnapshot :=
  build_snapshot (mkProcInfo p None (Some user) None None None None None None None).

(** Readings of a cycle that sees no process. *)
Definition empty_readings : Readings :=
  mkReadings [] 0 0 0 0 0 0 (0, 0, 0)%Q 0 0 [].

(** ** Collection of processes *)

Lemma collect_processes_oks (infos : list ProcInfo) :
  collect_processes (map QOk infos) = Ok (map build_snapshot infos).
Proof.
  induction infos as [|i infos IH]; simpl; [done|].
  by rewrite IH.
Qed.

Lemma collect_processes_skip_one (before after : list ProcInfo) (e : PsutilError) :
  collect_processes (map QOk before ++ QErr (EPsutil e) :: map QOk after)
  = Ok (map build_snapshot (before ++ after)).
Proof.
  induction before as [|i before IH]; simpl.
  - apply collect_processes_oks.
  - by rewrite IH.
Qed.

Lemma poll_iteration_fields (r : Readings) (st : SystemMonitor) :
  poll_rate_ (poll_iteration r st) = poll_rate_ st /\
  stop_event (poll_iteration r st) = stop_event st /\
  thread (poll_iteration r st) = thread st /\
  alive (poll_iteration r st) = alive st /\
  cpu_history (poll_iteration r st)
    = deque_append HISTORY_MAXLEN (cpu_history st) (r_cpu_percents r).
Proof.
  unfold poll_iteration, collect_snapshot.
  destruct (collect_processes (r_queries r)); simpl; auto.
Qed.

(** C1: when reading one process out of N fails with [NoSuchProcess],
    [AccessDenied] or [ZombieProcess] and the others are read, the cycle
    raises nothing, it publishes a snapshot holding exactly the other N-1
    processes, and the loop goes on with the next cycle. *)
Theorem poll_cycle_skips_failed_process
    (before after : list ProcInfo) (e : PsutilError) (r : Readings)
    (rest : list Readings) (st : SystemMonitor)
    (Hq : r_queries r = map QOk before ++ QErr (EPsutil e) :: map QOk after)
    (Hrun : stop_event st = false) :
  (exists s,
      snd (collect_snapshot r st) = Ok s /\
      processes s = map build_snapshot (before ++ after) /\
      map pid (processes s) = map info_pid (before ++ after) /\
      length (processes s) = (length before + length after)%nat /\
      queue (poll_iteration r st) = queue st ++ [s]) /\
  poll_loop (r :: rest) st =
    (let '(st2, waits) := poll_loop rest (poll_iteration r st) in
     (st2, poll_rate st :: waits)).
Proof.
  split.
  - unfold poll_iteration, collect_snapshot. rewrite Hq, collect_processes_skip_one.
    simpl. eexists; split; [reflexivity|].
    split; [reflexivity|]. split.
    + simpl. generalize (before ++ after). intros l.
      induction l; simpl; congruence.
    + split; [simpl; by rewrite length_map, length_app|reflexivity].
  - simpl. rewrite Hrun. destruct (poll_iteration_fields r st) as [-> _].
    reflexivity.
Qed.

(** A process entry whose query succeeds. *)
Definition sample_info (p : Z) : ProcInfo :=
  mkProcInfo p (Some "proc") (Some "root") (Some "S") (Some 1%Q) (Some 2%Q)
    (Some 4096) (Some 1) (Some 0) (Some ["/bin/proc"]).

Lemma poll_cycle_skips_failed_process_witness :
  let r := mkReadings [] 0 0 0 0 0 0 (0, 0, 0)%Q 0 0
             (map QOk [sample_info 1] ++ QErr (EPsutil AccessDenied) :: map QOk [sample_info 3]) in
  r_queries r = map QOk [sample_info 1] ++ QErr (EPsutil AccessDenied) :: map QOk [sample_info 3] /\
  stop_event (SystemMonitor_init [] 2) = false /\
  ((exists s,
      snd (collect_snapshot r (SystemMonitor_init [] 2)) = Ok s /\
      processes s = map build_snapshot ([sample_info 1] ++ [sample_info 3]) /\
      map pid (processes s) = map info_pid ([sample_info 1] ++ [sample_info 3]) /\
      length (processes s) = (length [sample_info 1] + length [sample_info 3])%nat /\
      queue (poll_iteration r (SystemMonitor_init [] 2)) = queue (SystemMonitor_init [] 2) ++ [s]) /\
   poll_loop [r] (SystemMonitor_init [] 2) =
    (let '(st2, waits) := poll_loop [] (poll_iteration r (SystemMonitor_init [] 2)) in
     (st2, poll_rate (SystemMonitor_init [] 2) :: waits))).
Proof.
  intros r. split; [reflexivity|]. split; [reflexivity|].
  apply (poll_cycle_skips_failed_process [sample_info 1] [sample_info 3] AccessDenied r []
           (SystemMonitor_init [] 2)); reflexivity.
Defined.

(** ** Poll rate *)

(** The setter clamps: any value below 0.1 is stored as 0.1. *)
Lemma set_poll_rate_clamps (st : SystemMonitor) (v : Q) :
  (v < 1#10)%Q -> poll_rate (set_poll_rate st v) = 1#10.
Proof.
  intros Hv. unfold poll_rate, set_poll_rate, py_max; simpl.
  destruct (Qlt_le_dec (1#10) v) as [H|H]; [|reflexivity].
  exfalso. apply (Qlt_irrefl v). eapply Qlt_trans; eauto.
Qed.

(** C3: the constructor stores [poll_rate] as given: a monitor built with
    [poll_rate=0.05] waits 0.05 s between cycles, not 0.1 s. *)
Theorem init_poll_rate_not_clamped (q : list SystemSnapshot) (r : Readings) :
  poll_rate (SystemMonitor_init q (1#20)) = 1#20 /\
  snd (poll_loop [r] (SystemMonitor_init q (1#20))) = [1#20].
Proof.
  split; [reflexivity|]. simpl.
  destruct (poll_iteration_fields r (SystemMonitor_init q (1#20))) as [-> _].
  reflexivity.
Qed.

(** ** Lifecycle *)

(** C6: [stop] drops [self._thread] even when the join timed out: after
    [start] then a [stop] whose timeout elapses, the worker thread is still
    alive and [is_running] is [False]. *)
Theorem stop_timeout_drops_live_worker (q : list SystemSnapshot) (rate : Q) :
  let st := stop false (start (SystemMonitor_init q rate)) in
  monitor_reachable q rate st /\ is_running st = false /\ 0%nat ∈ alive st.
Proof.
  intros st. split; [|split].
  - eapply rtc_l; [apply ms_start|].
    eapply rtc_l; [apply ms_stop|]. apply rtc_refl.
  - reflexivity.
  - subst st. simpl. set_solver.
Qed.

(** ** CPU history *)

Open Scope nat_scope.

Lemma deque_append_drop {A} (h : list A) (x : A) :
  length h <= HISTORY_MAXLEN ->
  deque_append HISTORY_MAXLEN h x
  = drop (length (h ++ [x]) - HISTORY_MAXLEN) (h ++ [x]).
Proof.
  intros Hh. unfold deque_append. rewrite length_app; simpl.
  destruct (Nat.ltb_spec HISTORY_MAXLEN (length h + 1)) as [Hlt|Hge].
  - replace (length h + 1 - HISTORY_MAXLEN) with 1 by lia. reflexivity.
  - replace (length h + 1 - HISTORY_MAXLEN) with 0 by lia. reflexivity.
Qed.

Lemma history_fold {A} (xs h : list A) :
  length h <= HISTORY_MAXLEN ->
  fold_left (deque_append HISTORY_MAXLEN) xs h
  = drop (length (h ++ xs) - HISTORY_MAXLEN) (h ++ xs).
Proof.
  revert h. induction xs as [|x xs IH]; intros h Hh; simpl.
  - rewrite app_nil_r. replace (length h - HISTORY_MAXLEN) with 0 by lia.
    reflexivity.
  - rewrite deque_append_drop by done.
    rewrite IH.
    2:{ rewrite length_drop. lia. }
    rewrite <- drop_app_le by (rewrite length_app; simpl; lia).
    rewrite drop_drop. rewrite <- app_assoc. simpl.
    f_equal. rewrite !length_app, length_drop, !length_app. simpl. lia.
Qed.

Lemma poll_loop_history (rs : list Readings) (st : SystemMonitor) :
  stop_event st = false ->
  cpu_history (fst (poll_loop rs st))
  = fold_left (deque_append HISTORY_MAXLEN) (map r_cpu_percents rs) (cpu_history st).
Proof.
  revert st. induction rs as [|r rs IH]; intros st Hs; simpl; [done|].
  rewrite Hs.
  destruct (poll_iteration_fields r st) as (_ & Hstop & _ & _ & Hh).
  specialize (IH (poll_iteration r st)). rewrite Hstop in IH.
  destruct (poll_loop rs (poll_iteration r st)) as [st2 w] eqn:E. simpl in *.
  rewrite IH by done. by rewrite Hh.
Qed.

(** C7: after k pushes into the empty history, it holds min(k, 60)
    samples, the last ones pushed, oldest first; a push at capacity drops
    the oldest sample; [get_cpu_history] returns that content, and it is
    what a monitor shows after k cycles. *)
Theorem cpu_history_bounded_fifo (samples : list (list Q)) :
  let h := fold_left (deque_append HISTORY_MAXLEN) samples [] in
  length h = Nat.min (length samples) 60 /\
  h = drop (length samples - 60) samples /\
  (forall (buf : list (list Q)) x, length buf = 60 ->
     deque_append HISTORY_MAXLEN buf x = drop 1 buf ++ [x]) /\
  (forall (rs : list Readings) (q : list SystemSnapshot) (rate : Q),
     map r_cpu_percents rs = samples ->
     get_cpu_history (fst (poll_loop rs (SystemMonitor_init q rate))) = h).
Proof.
  intros h. assert (Hh : h = drop (length samples - 60) samples).
  { subst h. rewrite history_fold by (simpl; lia). reflexivity. }
  split; [|split; [exact Hh|split]].
  - rewrite Hh, length_drop. lia.
  - intros buf x Hb. unfold deque_append. rewrite length_app, Hb. simpl.
    destruct buf; [discriminate|]. reflexivity.
  - intros rs q rate Hrs. unfold get_cpu_history.
    rewrite poll_loop_history by reflexivity. simpl. by rewrite Hrs.
Qed.

(** ** The snapshot queue *)

Lemma publishes_app (ps q : list SystemSnapshot) : publishes ps q = q ++ ps.
Proof.
  revert q. induction ps as [|s ps IH]; intros q; simpl.
  - by rewrite app_nil_r.
  - unfold publishes in *. simpl. rewrite IH. unfold put. by rewrite <- app_assoc.
Qed.

Lemma drain_last (l : list SystemSnapshot) (o : option SystemSnapshot) :
  drain l o = (match last l with Some x => Some x | None => o end, []).
Proof.
  revert o. induction l as [|s l IH]; intros o; simpl; [done|].
  rewrite IH. destruct l as [|s' l]; [done|].
  change (last (s :: s' :: l)) with (last (s' :: l)).
  destruct (last (s' :: l)) eqn:E; [done|].
  apply last_None in E. discriminate.
Qed.

Lemma last_app_of_last {A} (l1 l2 : list A) (x : A) :
  last l2 = Some x -> last (l1 ++ l2) = Some x.
Proof. intros H. by rewrite last_app, H. Qed.

(** C2 (as the code is): the channel is a [Queue()] without [maxsize];
    two cycles without a drain leave two snapshots in it. *)
Lemma queue_exceeds_one_slot :
  ~ (length (queue (fst (poll_loop [empty_readings; empty_readings]
                                   (SystemMonitor_init [] 2)))) <= 1).
Proof. vm_compute. lia. Qed.

(** C2, amended: the channel is an unbounded FIFO: every publish appends,
    so without a drain it holds every published snapshot (each completed
    cycle publishes one); a drain empties it and keeps only the newest. *)
Theorem channel_unbounded_fifo (q ps : list SystemSnapshot) (r : Readings)
    (st : SystemMonitor) :
  publishes ps q = q ++ ps /\
  length (publishes ps q) = length q + length ps /\
  drain (publishes ps q) None = (last (q ++ ps), []) /\
  (forall s, snd (collect_snapshot r st) = Ok s ->
     queue (poll_iteration r st) = put s (queue st)).
Proof.
  rewrite publishes_app. split; [done|]. split; [by rewrite length_app|].
  split.
  - rewrite drain_last. by destruct (last (q ++ ps)).
  - intros s Hs. unfold poll_iteration.
    destruct (collect_snapshot r st) as [st1 res] eqn:E. simpl in Hs. subst res.
    unfold collect_snapshot in E. injection E as <- _. reflexivity.
Qed.

(** C4: after any publishes ending with [s], a drain returns [s], empties
    the queue and renders [s]; a second drain before any publish finds
    nothing and leaves the application state as it is. *)
Theorem drain_keeps_latest (q ps : list SystemSnapshot) (a : PytopApp)
    (s : SystemSnapshot) (Hlast : last ps = Some s) :
  fst (drain (publishes ps q) None) = Some s /\
  check_for_updates (publishes ps q) a = ([], update_ui s a) /\
  check_for_updates [] (update_ui s a) = ([], update_ui s a).
Proof.
  rewrite publishes_app, drain_last.
  rewrite (last_app_of_last q ps s Hlast). split; [done|]. split; [|done].
  unfold check_for_updates. rewrite drain_last.
  by rewrite (last_app_of_last q ps s Hlast).
Qed.

Definition sample_system (ps : list ProcessSnapshot) : SystemSnapshot :=
  mkSystemSnapshot [] 0 0 0 0 0 0 (0, 0, 0)%Q 0 ps.

Definition PytopApp_init : PytopApp :=
  {| header := None; table := ProcessTable_init; table_ops := [] |}.

Lemma drain_keeps_latest_witness :
  last [sample_system []; sample_system [sample_proc 7 "root"]]
    = Some (sample_system [sample_proc 7 "root"]) /\
  fst (drain (publishes [sample_system []; sample_system [sample_proc 7 "root"]] []) None)
    = Some (sample_system [sample_proc 7 "root"]) /\
  check_for_updates (publishes [sample_system []; sample_system [sample_proc 7 "root"]] [])
    PytopApp_init = ([], update_ui (sample_system [sample_proc 7 "root"]) PytopApp_init) /\
  check_for_updates [] (update_ui (sample_system [sample_proc 7 "root"]) PytopApp_init)
    = ([], update_ui (sample_system [sample_proc 7 "root"]) PytopApp_init).
Proof.
  split; [reflexivity|].
  apply (drain_keeps_latest [] [sample_system []; sample_system [sample_proc 7 "root"]]
           PytopApp_init (sample_system [sample_proc 7 "root"])).
  reflexivity.
Defined.

(** ** Sorting *)

Open Scope Z_scope.

Lemma key_lt_asym (a b : KeyVal) : key_lt a b = true -> key_lt b a = false.
Proof.
  destruct a as [x|x|x], b as [y|y|y]; simpl; try done.
  - destruct (Qlt_le_dec x y) as [H1|]; [|done].
    destruct (Qlt_le_dec y x) as [H2|]; [|done].
    exfalso. apply (Qlt_irrefl x). eapply Qlt_trans; eauto.
  - intros H. apply Z.ltb_lt in H. apply Z.ltb_ge. lia.
  - unfold String.ltb. rewrite (String.compare_antisym y x).
    destruct (String.compare x y); simpl; done.
Qed.

Lemma precedes_asym {A} (key : A -> KeyVal) (reverse : bool) (x y : A) :
  precedes key reverse y x = true -> precedes key reverse x y = false.
Proof. unfold precedes. destruct reverse; apply key_lt_asym. Qed.

Lemma sorted_insert_perm {A} (key : A -> KeyVal) (reverse : bool) (x : A) (l : list A) :
  Permutation (x :: l) (sorted_insert key reverse x l).
Proof.
  induction l as [|y l IH]; simpl; [done|].
  destruct (precedes key reverse y x); [|done].
  etrans; [apply perm_swap|]. by apply perm_skip.
Qed.

Lemma py_sorted_perm {A} (key : A -> KeyVal) (reverse : bool) (l : list A) :
  Permutation l (py_sorted key reverse l).
Proof.
  induction l as [|x l IH]; simpl; [done|].
  etrans; [apply perm_skip, IH|]. apply sorted_insert_perm.
Qed.

Section SortedOrder.
Context {A : Type} (key : A -> KeyVal) (reverse : bool).

(** Two neighbours [y; x] of the output: [x] does not have to precede [y]. *)
Definition in_order (y x : A) : Prop := precedes key reverse x y = false.

Lemma sorted_insert_hd (y x : A) (l : list A) :
  HdRel in_order y l -> in_order y x -> HdRel in_order y (sorted_insert key reverse x l).
Proof.
  intros Hl Hyx. destruct l as [|z l]; simpl; [by constructor|].
  destruct (precedes key reverse z x); constructor; [by inversion Hl|done].
Qed.

Lemma sorted_insert_sorted (x : A) (l : list A) :
  Sorted in_order l -> Sorted in_order (sorted_insert key reverse x l).
Proof.
  induction l as [|y l IH]; intros Hs; simpl; [by repeat constructor|].
  apply Sorted_inv in Hs as [Hs Hhd].
  destruct (precedes key reverse y x) eqn:E.
  - constructor; [by apply IH|].
    apply sorted_insert_hd; [done|]. by apply precedes_asym.
  - constructor; [by constructor|]. by constructor.
Qed.

Lemma py_sorted_sorted (l : list A) : Sorted in_order (py_sorted key reverse l).
Proof.
  induction l as [|x l IH]; simpl; [constructor|]. by apply sorted_insert_sorted.
Qed.
End SortedOrder.

Lemma Sorted_weaken {A} (R R' : A -> A -> Prop) (l : list A) :
  (forall a b, R a b -> R' a b) -> Sorted R l -> Sorted R' l.
Proof.
  intros HR Hs. induction Hs as [|a l Hs IH Hhd]; constructor; [done|].
  destruct Hhd; constructor; auto.
Qed.

(** The order [sorted] gives for each key and direction. *)
Lemma sorted_desc_Q (f : ProcessSnapshot -> Q) (l : list ProcessSnapshot) :
  Sorted (fun a b => (f b <= f a)%Q) (py_sorted (fun p => KQ (f p)) true l).
Proof.
  eapply Sorted_weaken; [|apply py_sorted_sorted].
  intros a b. unfold in_order, precedes; simpl.
  destruct (Qlt_le_dec (f a) (f b)); done.
Qed.

Lemma sorted_asc_Z (f : ProcessSnapshot -> Z) (l : list ProcessSnapshot) :
  Sorted (fun a b => f a <= f b) (py_sorted (fun p => KZ (f p)) false l).
Proof.
  eapply Sorted_weaken; [|apply py_sorted_sorted].
  intros a b. unfold in_order, precedes; simpl. intros H. apply Z.ltb_ge in H. lia.
Qed.

Lemma sorted_asc_str (f : ProcessSnapshot -> string) (l : list ProcessSnapshot) :
  Sorted (fun a b => String.leb (f a) (f b) = true) (py_sorted (fun p => KS (f p)) false l).
Proof.
  eapply Sorted_weaken; [|apply py_sorted_sorted].
  intros a b. unfold in_order, precedes; simpl. unfold String.ltb, String.leb.
  rewrite (String.compare_antisym (f b) (f a)).
  destruct (String.compare (f a) (f b)); simpl; done.
Qed.

Lemma table_after_cycles_reverse (n : nat) :
  sort_reverse (table_after_cycles n)
  = bool_decide (sort_key (table_after_cycles n) ∈ [CPU; MEM]).
Proof.
  destruct n as [|n]; [reflexivity|]. simpl. reflexivity.
Qed.

(** C8: from the initial key CPU, four [cycle_sort] calls return MEM, PID,
    USER, CPU; in every state so reached, sorting orders processes
    descending by CPU or memory percent under CPU or MEM and ascending by
    pid or lowercased username under PID or USER, and usernames that
    differ only in case compare equal. *)
Theorem sort_engine_cycle_and_order :
  (snd (cycle_sort (table_after_cycles 0)), snd (cycle_sort (table_after_cycles 1)),
   snd (cycle_sort (table_after_cycles 2)), snd (cycle_sort (table_after_cycles 3)))
    = (MEM, PID, USER, CPU) /\
  sort_key (table_after_cycles 4) = CPU /\
  (forall (n : nat) (ps : list ProcessSnapshot),
     let t := table_after_cycles n in
     let out := sort_processes t ps in
     Permutation ps out /\
     match sort_key t with
     | CPU => Sorted (fun a b => (cpu_percent b <= cpu_percent a)%Q) out
     | MEM => Sorted (fun a b => (memory_percent b <= memory_percent a)%Q) out
     | PID => Sorted (fun a b => pid a <= pid b) out
     | USER => Sorted (fun a b => String.leb (str_lower (username a))
                                              (str_lower (username b)) = true) out
     end) /\
  (forall p q : ProcessSnapshot,
     str_lower (username p) = str_lower (username q) ->
     key_func USER p = key_func USER q) /\
  sort_processes (table_after_cycles 3) [sample_proc 1 "Bob"; sample_proc 2 "alice"]
    = [sample_proc 2 "alice"; sample_proc 1 "Bob"].
Proof.
  split; [reflexivity|]. split; [reflexivity|]. split; [|split].
  - intros n ps t out. split; [apply py_sorted_perm|].
    subst out. unfold sort_processes.
    pose proof (table_after_cycles_reverse n) as Hr. fold t in Hr.
    destruct (sort_key t); rewrite Hr; simpl.
    + apply (sorted_desc_Q cpu_percent).
    + apply (sorted_desc_Q memory_percent).
    + apply (sorted_asc_Z pid).
    + apply (sorted_asc_str (fun p => str_lower (username p))).
  - intros p q H. simpl. by rewrite H.
  - vm_compute. reflexivity.
Qed.

(** ** Reconciliation of the process table *)

Definition removed_pids (ops : list TableOp) : list Z :=
  omap (fun op => match op with RemoveRow x => Some x | _ => None end) ops.

Definition updated_pids (ops : list TableOp) : list Z :=
  omap (fun op => match op with UpdateRow p => Some (pid p) | _ => None end) ops.

Definition inserted_pids (ops : list TableOp) : list Z :=
  omap (fun op => match op with AddRow p => Some (pid p) | _ => None end) ops.

(** The three reconciliations A = {100, 200}, B = {200}, C = {200, 300}
    from a fresh table: the operations of each. *)
Definition reconcile_ABC : list TableOp * list TableOp * list TableOp :=
  let '(ops1, t1) := update_processes ProcessTable_init
                       [sample_proc 100 "root"; sample_proc 200 "root"] in
  let '(ops2, t2) := update_processes t1 [sample_proc 200 "root"] in
  let '(ops3, _) := update_processes t2 [sample_proc 200 "root"; sample_proc 300 "root"] in
  (ops1, ops2, ops3).

(** C5: reconciliation removes exactly the rows of P − N, updates every
    incoming process whose pid is in P, inserts every other one, issues no
    row operation for anything else, and tracks N afterwards; on A, B, C
    it removes 100 then inserts 300 and nothing else. *)
Theorem update_processes_reconcile (t : ProcessTable) (ps : list ProcessSnapshot) :
  (let '(ops, t') := update_processes t ps in
   (forall x, RemoveRow x ∈ ops <->
              x ∈ current_pids t /\ x ∉ (list_to_set (pid <$> ps) : gset Z)) /\
   (forall p, p ∈ ps -> pid p ∈ current_pids t -> UpdateRow p ∈ ops /\ AddRow p ∉ ops) /\
   (forall p, p ∈ ps -> pid p ∉ current_pids t -> AddRow p ∈ ops /\ UpdateRow p ∉ ops) /\
   (forall p, UpdateRow p ∈ ops \/ AddRow p ∈ ops -> p ∈ ps) /\
   current_pids t' = list_to_set (pid <$> ps)) /\
  (let '(_, ops2, ops3) := reconcile_ABC in
   removed_pids ops2 = [100] /\ inserted_pids ops2 = [] /\ updated_pids ops2 = [200] /\
   removed_pids ops3 = [] /\ inserted_pids ops3 = [300] /\ updated_pids ops3 = [200]).
Proof.
  split; [|vm_compute; repeat split].
  unfold update_processes. set (sorted := sort_processes t ps).
  assert (Hp : ps ≡ₚ sorted) by apply py_sorted_perm.
  assert (HN : (list_to_set (pid <$> sorted) : gset Z) = list_to_set (pid <$> ps)).
  { apply leibniz_equiv, list_to_set_perm. by rewrite Hp. }
  rewrite HN. split_and!.
  - intros x. rewrite elem_of_app, !list_elem_of_fmap. split.
    + intros [[y [Hy Hel]] | [p [Hx _]]].
      * injection Hy as ->. by apply elem_of_elements, elem_of_difference in Hel.
      * by destruct (decide (pid p ∈ current_pids t)).
    + intros H. left. exists x. split; [done|].
      by apply elem_of_elements, elem_of_difference.
  - intros p Hin HP. split.
    + apply elem_of_app; right; apply list_elem_of_fmap. exists p.
      rewrite decide_True by done. split; [done|]. by rewrite <- Hp.
    + rewrite elem_of_app, !list_elem_of_fmap.
      intros [[y [H _]] | [q [H _]]]; [discriminate|].
      destruct (decide (pid q ∈ current_pids t)); [discriminate|].
      injection H as ->. contradiction.
  - intros p Hin HP. split.
    + apply elem_of_app; right; apply list_elem_of_fmap. exists p.
      rewrite decide_False by done. split; [done|]. by rewrite <- Hp.
    + rewrite elem_of_app, !list_elem_of_fmap.
      intros [[y [H _]] | [q [H _]]]; [discriminate|].
      destruct (decide (pid q ∈ current_pids t)); [|discriminate].
      injection H as ->. contradiction.
  - intros p [H|H]; rewrite elem_of_app, !list_elem_of_fmap in H;
      destruct H as [[y [H _]] | [q [H Hq]]]; try discriminate;
      destruct (decide (pid q ∈ current_pids t)); try discriminate;
      injection H as ->; by rewrite Hp.
  - reflexivity.
Qed.

(** ** Human-readable sizes *)

(** [size] after [k] passes of [size = size / 1024] on a float. *)
Fixpoint div_iter (k : nat) (q : Q) : Q :=
  match k with
  | O => q
  | S k' => div_iter k' (q / inject_Z 1024)
  end.

Definition size_units : list string := ["B"; "K"; "M"; "G"; "T"].

Lemma format_bytes_loop_float (us : list string) (k : nat) (q : Q) (u : string) :
  us !! k = Some u ->
  Forall (fun v => v <> "B") us ->
  (forall j, (j < k)%nat -> ~ (div_iter j q < inject_Z 1024)%Q) ->
  (div_iter k q < inject_Z 1024)%Q ->
  format_bytes_loop us (PFloat q) = Ok (String.append (fmt_5_1f (PFloat (div_iter k q))) u).
Proof.
  revert us q. induction k as [|k IH]; intros us q Hu HB Hbig Hsmall;
    destruct us as [|v us]; try discriminate; simpl in *.
  - injection Hu as ->. apply Forall_cons in HB as [HB _].
    destruct (Qlt_le_dec q (inject_Z 1024)) as [_|H]; [|exfalso; by apply (Qle_not_lt _ _ H)].
    simpl. destruct (String.eqb_spec u "B"); [done|reflexivity].
  - apply Forall_cons in HB as [_ HB].
    destruct (Qlt_le_dec q (inject_Z 1024)) as [H|_].
    + exfalso. apply (Hbig 0%nat); [lia|exact H].
    + simpl. apply IH; try done.
      intros j Hj. apply (Hbig (S j)). lia.
Qed.

Lemma div_iter_eq (k : nat) (x : Q) :
  (div_iter k x == x / inject_Z (1024 ^ Z.of_nat k))%Q.
Proof.
  revert x. induction k as [|k IH]; intros x; simpl.
  - unfold Qdiv. simpl. rewrite Qmult_1_r. reflexivity.
  - rewrite IH. rewrite Nat2Z.inj_succ, Z.pow_succ_r by lia.
    rewrite inject_Z_mult.
    assert (Hp : ~ (inject_Z (1024 ^ Z.of_nat k) == 0)%Q).
    { change 0%Q with (inject_Z 0). rewrite inject_Z_injective. intros H.
      apply (Z.pow_nonzero 1024 (Z.of_nat k)); lia. }
    field. exact Hp.
Qed.

Lemma div_lt_iff (x c : Q) :
  (0 < c)%Q -> ((x / c < inject_Z 1024)%Q <-> (x < inject_Z 1024 * c)%Q).
Proof.
  intros Hc. split.
  - intros H. destruct (Qlt_le_dec x (inject_Z 1024 * c)) as [|Hle]; [done|].
    exfalso. apply (Qle_not_lt _ _ (Qle_shift_div_l _ _ _ Hc Hle)). exact H.
  - intros H. by apply Qlt_shift_div_r.
Qed.

Lemma div_iter_small (k : nat) (z : Z) :
  (div_iter k (inject_Z z) < inject_Z 1024)%Q <-> z < 1024 ^ (Z.of_nat k + 1).
Proof.
  rewrite div_iter_eq, div_lt_iff.
  - rewrite <- inject_Z_mult, <- Zlt_Qlt.
    rewrite Z.pow_add_r, Z.pow_1_r by lia. lia.
  - change 0%Q with (inject_Z 0). rewrite <- Zlt_Qlt.
    apply Z.pow_pos_nonneg; lia.
Qed.

Lemma format_bytes_loop_overflow (us : list string) (q : Q) :
  (forall j, (j < length us)%nat -> ~ (div_iter j q < inject_Z 1024)%Q) ->
  format_bytes_loop us (PFloat q)
  = Ok (String.append (fmt_1f (div_iter (length us) q)) "P").
Proof.
  revert q. induction us as [|v us IH]; intros q Hbig; simpl; [done|].
  destruct (Qlt_le_dec q (inject_Z 1024)) as [H|_].
  - exfalso. apply (Hbig 0%nat); [simpl; lia|exact H].
  - apply IH. intros j Hj. apply (Hbig (S j)). simpl. lia.
Qed.

Lemma format_bytes_big (z : Z) :
  1024 <= z ->
  format_bytes z = format_bytes_loop ["K"; "M"; "G"; "T"] (PFloat (inject_Z z / inject_Z 1024)).
Proof.
  intros Hz. unfold format_bytes.
  change (format_bytes_loop (["B"] ++ ["K"; "M"; "G"; "T"]) (PInt z)
          = format_bytes_loop ["K"; "M"; "G"; "T"] (num_div (PInt z) 1024)).
  unfold app. unfold format_bytes_loop at 1. fold format_bytes_loop.
  unfold num_lt. destruct (Z.ltb_spec z 1024); [lia|reflexivity].
Qed.

Lemma pow1024_mono (a b : Z) : 0 <= a <= b -> 1024 ^ a <= 1024 ^ b.
Proof. intros H. apply Z.pow_le_mono_r; lia. Qed.

(** C9: 500, 2048, 5242880 and 1073741824 bytes print with B, K, M and G;
    for a size [z >= 0], the unit is the k-th of B, K, M, G, T exactly when
    1024^k <= z < 1024^(k+1) (a value below 1024 stays, a larger one is
    divided by 1024 and moves to the next unit), the value printed being
    [z] divided k times by 1024; from 1024^5 on the unit is P. *)
Theorem format_bytes_units :
  format_bytes 500 = Ok "  500B" /\
  format_bytes 2048 = Ok "  2.0K" /\
  format_bytes 5242880 = Ok "  5.0M" /\
  format_bytes 1073741824 = Ok "  1.0G" /\
  (forall z, 0 <= z < 1024 -> format_bytes z = Ok (String.append (pad_left 5 (str_Z z)) "B")) /\
  (forall (z : Z) (k : nat) (u : string),
     (1 <= k)%nat -> size_units !! k = Some u ->
     1024 ^ Z.of_nat k <= z < 1024 ^ (Z.of_nat k + 1) ->
     format_bytes z = Ok (String.append (fmt_5_1f (PFloat (div_iter k (inject_Z z)))) u)) /\
  (forall z, 1024 ^ 5 <= z ->
     format_bytes z = Ok (String.append (fmt_1f (div_iter 5 (inject_Z z))) "P")).
Proof.
  split_and!; [vm_compute; reflexivity..| | |].
  - intros z Hz. unfold format_bytes. simpl.
    destruct (Z.ltb_spec z 1024); [reflexivity|lia].
  - intros z k u Hk Hu Hz. destruct k as [|k]; [lia|].
    assert (H1 : 1024 <= z).
    { etrans; [|apply Hz]. rewrite <- (Z.pow_1_r 1024) at 1. apply pow1024_mono. lia. }
    rewrite format_bytes_big by done.
    apply (format_bytes_loop_float _ k); [exact Hu|repeat constructor; discriminate| |].
    + intros j Hj. change (div_iter j (inject_Z z / inject_Z 1024))
        with (div_iter (S j) (inject_Z z)).
      rewrite div_iter_small. intros Hlt.
      assert (1024 ^ (Z.of_nat (S j) + 1) <= 1024 ^ Z.of_nat (S k)) by (apply pow1024_mono; lia).
      lia.
    + change (div_iter k (inject_Z z / inject_Z 1024)) with (div_iter (S k) (inject_Z z)).
      apply div_iter_small. lia.
  - intros z Hz.
    assert (H1 : 1024 <= z) by (etrans; [|apply Hz]; vm_compute; discriminate).
    rewrite format_bytes_big by done.
    apply (format_bytes_loop_overflow ["K"; "M"; "G"; "T"]).
    intros j Hj. simpl in Hj. change (div_iter j (inject_Z z / inject_Z 1024))
        with (div_iter (S j) (inject_Z z)).
    rewrite div_iter_small. intros Hlt.
    assert (1024 ^ (Z.of_nat (S j) + 1) <= 1024 ^ 5) by (apply pow1024_mono; lia).
    lia.
Qed.

(** ** Defaults of a process snapshot *)

(** The defaults that do hold: a missing name or username gives the empty
    string, a missing status ["?"], missing numbers 0; and an empty or
    missing command line gives the name when psutil read the name. *)
Lemma build_snapshot_defaults (info : ProcInfo) :
  let p := build_snapshot info in
  (info_name info = None -> name p = EmptyString) /\
  (info_username info = None -> username p = EmptyString) /\
  (info_status info = None -> status p = "?") /\
  (info_cpu_percent info = None -> cpu_percent p = 0%Q) /\
  (info_memory_percent info = None -> memory_percent p = 0%Q) /\
  (info_num_threads info = None -> threads p = 0) /\
  (info_nice info = None -> nice p = 0) /\
  (info_memory_info info = None -> memory_rss p = 0) /\
  (forall n, info_name info = Some n -> or_list (info_cmdline info) [] = [] ->
     command_line p = Some n).
Proof.
  intros p. subst p. unfold build_snapshot; simpl.
  split_and!; intros; repeat match goal with H : _ = _ |- _ => rewrite H; clear H end;
    try reflexivity.
  all: destruct (or_list (info_cmdline info) []); [done|discriminate].
Qed.

(** C10: a process whose name and command line psutil could not read
    (both [None]) gets [command_line = None]: [info.get("name", "")]
    returns the [None] stored under the key, not the default; the other
    fields get their defaults. *)
Theorem build_snapshot_command_line_none :
  let p := build_snapshot (mkProcInfo 42 None None None None None None None None None) in
  command_line p = None /\ name p = EmptyString /\ username p = EmptyString /\
  status p = "?" /\ cpu_percent p = 0%Q /\ memory_percent p = 0%Q /\
  memory_rss p = 0 /\ threads p = 0 /\ nice p = 0.
Proof. vm_compute. repeat split. Qed.

(* ================================================================== *)
(** * The rows of the [DataTable] *)

(** The row key a row operation addresses. *)
Definition op_key (op : TableOp) : Z :=
  match op with
  | RemoveRow k => k
  | UpdateRow p => pid p
  | AddRow p => pid p
  end.

(** The operation [update_processes] issues for an incoming process. *)
Definition op_of (C : gset Z) (proc : ProcessSnapshot) : TableOp :=
  if decide (pid proc ∈ C) then UpdateRow proc else AddRow proc.

Lemma update_processes_ops (t : ProcessTable) (ps : list ProcessSnapshot) :
  fst (update_processes t ps)
  = (RemoveRow <$> elements (current_pids t ∖ list_to_set (pid <$> sort_processes t ps)))
    ++ (op_of (current_pids t) <$> sort_processes t ps).
Proof. reflexivity. Qed.

Lemma format_bytes_ok (z : Z) : exists s, format_bytes z = Ok s.
Proof.
  unfold format_bytes. cbn -[fmt_5_1f fmt_1f pad_left str_Z].
  repeat case_match; eauto.
Qed.

Lemma render_row_Some (p : ProcessSnapshot) (c rss : string) :
  command_line p = Some c -> format_bytes (memory_rss p) = Ok rss ->
  render_row p
  = Ok {| c_pid := str_Z (pid p); c_user := slice (username p) 10;
          c_nice := str_Z (nice p); c_status := status p;
          c_cpu := fmt_5_1f (PFloat (cpu_percent p));
          c_mem := fmt_5_1f (PFloat (memory_percent p));
          c_rss := rss; c_threads := str_Z (threads p); c_command := slice c 50 |}.
Proof. intros Hc Hrss. unfold render_row. rewrite Hrss, Hc. reflexivity. Qed.

Lemma apply_op_other (T : DataTable) (op : TableOp) (k : Z) :
  k <> op_key op -> apply_op T op !! k = T !! k.
Proof.
  intros Hk. destruct op as [j|p|p]; simpl in *;
    unfold table_remove_row, table_update_row, table_add_row.
  - rewrite lookup_delete_ne; [done|congruence].
  - repeat case_match; try done; (rewrite lookup_insert_ne; [done|congruence]).
  - repeat case_match; try done; (rewrite lookup_insert_ne; [done|congruence]).
Qed.

Lemma apply_ops_app (T : DataTable) (o1 o2 : list TableOp) :
  apply_ops T (o1 ++ o2) = apply_ops (apply_ops T o1) o2.
Proof. apply fold_left_app. Qed.

Lemma apply_ops_cons (T : DataTable) (op : TableOp) (ops : list TableOp) :
  apply_ops T (op :: ops) = apply_ops (apply_op T op) ops.
Proof. reflexivity. Qed.

Lemma apply_ops_other (T : DataTable) (ops : list TableOp) (k : Z) :
  k ∉ op_key <$> ops -> apply_ops T ops !! k = T !! k.
Proof.
  revert T. induction ops as [|op ops IH]; intros T Hk; [done|].
  rewrite fmap_cons, not_elem_of_cons in Hk. destruct Hk as [Hk1 Hk2].
  rewrite apply_ops_cons, IH by done. by apply apply_op_other.
Qed.

Lemma op_key_removals (ks : list Z) : op_key <$> (RemoveRow <$> ks) = ks.
Proof. induction ks as [|k ks IH]; [done|]. by rewrite !fmap_cons, IH. Qed.

Lemma op_key_rows (C : gset Z) (l : list ProcessSnapshot) :
  op_key <$> (op_of C <$> l) = pid <$> l.
Proof.
  induction l as [|p l IH]; [done|]. rewrite !fmap_cons, IH. f_equal.
  unfold op_of. by case_decide.
Qed.

Lemma apply_removals_in (T : DataTable) (ks : list Z) (k : Z) :
  k ∈ ks -> apply_ops T (RemoveRow <$> ks) !! k = None.
Proof.
  revert T. induction ks as [|j ks IH]; intros T Hk; [set_solver|].
  rewrite fmap_cons, apply_ops_cons.
  destruct (decide (k ∈ ks)) as [Hin|Hnin]; [by apply IH|].
  assert (k = j) as -> by set_solver.
  rewrite apply_ops_other by (by rewrite op_key_removals).
  apply lookup_delete_eq.
Qed.

(** The operation for a process whose command line is known: the table
    then holds its rendered row, whether it was added or updated. *)
Lemma apply_op_row (T : DataTable) (C : gset Z) (p : ProcessSnapshot) (c : string) :
  command_line p = Some c -> (is_Some (T !! pid p) <-> pid p ∈ C) ->
  exists r, render_row p = Ok r /\ apply_op T (op_of C p) !! pid p = Some r.
Proof.
  intros Hc HT. destruct (format_bytes_ok (memory_rss p)) as [rss Hrss].
  eexists. split; [by apply render_row_Some|].
  unfold op_of. case_decide as HC; simpl.
  - apply HT in HC as [r0 Hr0]. unfold table_update_row.
    rewrite Hr0, Hrss, Hc. simpl. by rewrite lookup_insert_eq.
  - assert (T !! pid p = None) as HN.
    { destruct (T !! pid p) eqn:E; [|done]. exfalso. apply HC, HT. by eexists. }
    unfold table_add_row. rewrite (render_row_Some p c rss Hc Hrss), HN.
    by rewrite lookup_insert_eq.
Qed.

Lemma sort_processes_NoDup (t : ProcessTable) (ps : list ProcessSnapshot) :
  NoDup (pid <$> ps) -> NoDup (pid <$> sort_processes t ps).
Proof.
  intros H. assert (Hp : ps ≡ₚ sort_processes t ps) by apply py_sorted_perm.
  by rewrite <- Hp.
Qed.

(** [update_processes] keeps the [DataTable] in step with the snapshot:
    if the table holds a row exactly for the tracked pids, the incoming
    pids are distinct and every command line is a string, then afterwards
    the table holds a row exactly for the newly tracked pids, and the row
    of each process is its rendering by [_add_row]. *)
Theorem update_processes_table_sync (t : ProcessTable) (ps : list ProcessSnapshot)
    (T : DataTable)
    (Hsync : forall k, is_Some (T !! k) <-> k ∈ current_pids t)
    (Hnodup : NoDup (pid <$> ps))
    (Hcmd : forall p, p ∈ ps -> is_Some (command_line p)) :
  let T' := apply_ops T (fst (update_processes t ps)) in
  (forall k, is_Some (T' !! k) <-> k ∈ current_pids (snd (update_processes t ps))) /\
  (forall p, p ∈ ps -> exists r, render_row p = Ok r /\ T' !! pid p = Some r).
Proof.
  intros T'. subst T'. rewrite update_processes_ops. simpl.
  set (S := sort_processes t ps).
  assert (Hp : ps ≡ₚ S) by apply py_sorted_perm.
  assert (HnS : NoDup (pid <$> S)) by (by apply sort_processes_NoDup).
  set (rm := elements (current_pids t ∖ list_to_set (pid <$> S))).
  set (T1 := apply_ops T (RemoveRow <$> rm)).
  assert (HT1 : forall k, k ∈ pid <$> S -> T1 !! k = T !! k).
  { intros k Hk. apply apply_ops_other. rewrite op_key_removals.
    subst rm. rewrite elem_of_elements, elem_of_difference, elem_of_list_to_set.
    tauto. }
  (* the row of an incoming process *)
  assert (Hrow : forall p, p ∈ S -> exists r, render_row p = Ok r /\
            apply_ops T1 (op_of (current_pids t) <$> S) !! pid p = Some r).
  { intros p HpS. destruct (list_elem_of_split _ _ HpS) as (l1 & l2 & HS).
    assert (HnS' := HnS). rewrite HS, fmap_app, fmap_cons in HnS'.
    apply NoDup_app in HnS' as (_ & Hdis & HnS2).
    apply NoDup_cons in HnS2 as [Hl2 _].
    assert (Hl1 : pid p ∉ pid <$> l1).
    { intros Hin. apply (Hdis _ Hin). apply elem_of_cons. by left. }
    destruct (Hcmd p) as [c Hc]; [by rewrite Hp|].
    destruct (apply_op_row (apply_ops T1 (op_of (current_pids t) <$> l1))
                (current_pids t) p c Hc) as (r & Hr & Hlk).
    { rewrite apply_ops_other by (by rewrite op_key_rows).
      rewrite HT1 by (apply list_elem_of_fmap; by exists p). apply Hsync. }
    exists r. split; [done|].
    rewrite HS, fmap_app, fmap_cons, apply_ops_app, apply_ops_cons.
    rewrite apply_ops_other by (by rewrite op_key_rows). exact Hlk. }
  rewrite apply_ops_app. fold T1. split.
  - intros k. rewrite elem_of_list_to_set.
    destruct (decide (k ∈ pid <$> S)) as [Hk|Hk].
    + split; [done|]. intros _.
      apply list_elem_of_fmap in Hk as (p & -> & HpS).
      destruct (Hrow p HpS) as (r & _ & Hr). rewrite Hr. by eexists.
    + split; [|done]. intros Hsome. exfalso.
      rewrite apply_ops_other in Hsome by (by rewrite op_key_rows).
      subst T1. destruct (decide (k ∈ current_pids t)) as [Hc|Hc].
      * rewrite apply_removals_in in Hsome; [by destruct Hsome|].
        subst rm. rewrite elem_of_elements, elem_of_difference, elem_of_list_to_set.
        tauto.
      * rewrite apply_ops_other in Hsome.
        -- by apply Hsync in Hsome.
        -- rewrite op_key_removals. subst rm.
           rewrite elem_of_elements, elem_of_difference. tauto.
  - intros p Hps. apply Hrow. by rewrite <- Hp.
Qed.

(** A process whose name psutil read, so that its command line is a string. *)
Definition named_proc (p : Z) (user cmd : string) : ProcessSnapshot :=
  build_snapshot (mkProcInfo p (Some cmd) (Some user) None None None None None None None).

Definition blank_row : Row :=
  mkRow EmptyString EmptyString EmptyString EmptyString EmptyString
        EmptyString EmptyString EmptyString EmptyString.

Lemma update_processes_table_sync_witness :
  let t := {| current_pids := {[7]}; sort_key := CPU; sort_reverse := true |} in
  let T : DataTable := <[7 := blank_row]> ∅ in
  let ps := [named_proc 9 "bob" "vim"; named_proc 7 "root" "init"] in
  (forall k, is_Some (T !! k) <-> k ∈ current_pids t) /\
  NoDup (pid <$> ps) /\
  (forall p, p ∈ ps -> is_Some (command_line p)) /\
  (let T' := apply_ops T (fst (update_processes t ps)) in
   (forall k, is_Some (T' !! k) <-> k ∈ current_pids (snd (update_processes t ps))) /\
   (forall p, p ∈ ps -> exists r, render_row p = Ok r /\ T' !! pid p = Some r)).
Proof.
  intros t T ps.
  assert (H1 : forall k, is_Some (T !! k) <-> k ∈ current_pids t).
  { intros k. subst T t. simpl. rewrite lookup_insert_is_Some, lookup_empty, elem_of_singleton.
    split; [intros [H|[_ [? H]]]; [done|discriminate] | intros ->; by left]. }
  assert (H2 : NoDup (pid <$> ps)) by (apply (bool_decide_unpack _); vm_compute; reflexivity).
  assert (H3 : forall p, p ∈ ps -> is_Some (command_line p)).
  { intros p Hp. subst ps. repeat (apply elem_of_cons in Hp as [->|Hp]; [by eexists|]).
    by apply elem_of_nil in Hp. }
  split; [exact H1|]. split; [exact H2|]. split; [exact H3|].
  exact (update_processes_table_sync t ps T H1 H2 H3).
Defined.

(** The entry at a key after an operation on that key depends only on the
    entry before it. *)
Lemma apply_op_local (T1 T2 : DataTable) (op : TableOp) :
  T1 !! op_key op = T2 !! op_key op ->
  apply_op T1 op !! op_key op = apply_op T2 op !! op_key op.
Proof.
  intros H. destruct op as [j|p|p]; simpl in *;
    unfold table_remove_row, table_update_row, table_add_row.
  - by rewrite !lookup_delete_eq.
  - rewrite H. repeat case_match; rewrite ?lookup_insert_eq; congruence.
  - rewrite H. repeat case_match; rewrite ?lookup_insert_eq; congruence.
Qed.

(** With distinct pids, the entry of an incoming process after
    [update_processes] is that of its own operation applied to the table
    as it was. *)
Lemma update_processes_at_pid (t : ProcessTable) (ps : list ProcessSnapshot)
    (T : DataTable) (p : ProcessSnapshot) :
  NoDup (pid <$> ps) -> p ∈ ps ->
  apply_ops T (fst (update_processes t ps)) !! pid p
  = apply_op T (op_of (current_pids t) p) !! pid p.
Proof.
  intros Hnodup Hps. rewrite update_processes_ops, apply_ops_app.
  set (S := sort_processes t ps).
  assert (Hp : ps ≡ₚ S) by apply py_sorted_perm.
  assert (HnS : NoDup (pid <$> S)) by (by apply sort_processes_NoDup).
  assert (HpS : p ∈ S) by (by rewrite <- Hp).
  set (rm := elements (current_pids t ∖ list_to_set (pid <$> S))).
  destruct (list_elem_of_split _ _ HpS) as (l1 & l2 & HS).
  assert (HnS' := HnS). rewrite HS, fmap_app, fmap_cons in HnS'.
  apply NoDup_app in HnS' as (_ & Hdis & HnS2).
  apply NoDup_cons in HnS2 as [Hl2 _].
  assert (Hl1 : pid p ∉ pid <$> l1).
  { intros Hin. apply (Hdis _ Hin). apply elem_of_cons. by left. }
  rewrite HS, fmap_app, fmap_cons, apply_ops_app, apply_ops_cons.
  rewrite apply_ops_other by (by rewrite op_key_rows).
  assert (Hkey : op_key (op_of (current_pids t) p) = pid p) by (unfold op_of; by case_decide).
  rewrite <- Hkey. apply apply_op_local. rewrite Hkey.
  rewrite apply_ops_other by (by rewrite op_key_rows).
  apply apply_ops_other. rewrite op_key_removals. subst rm.
  rewrite elem_of_elements, elem_of_difference, elem_of_list_to_set.
  intros [_ []]. apply list_elem_of_fmap. by exists p.
Qed.

(** [_add_row] adds nothing exactly when rendering the row raises, which
    happens exactly when the command line is [None]: [format_bytes] never
    raises on an [int] and the other cells cannot fail. *)
Theorem render_row_fails_iff_no_command (p : ProcessSnapshot) :
  (exists r, render_row p = Ok r) <-> is_Some (command_line p).
Proof.
  destruct (format_bytes_ok (memory_rss p)) as [rss Hrss].
  unfold render_row. rewrite Hrss. simpl.
  destruct (command_line p) as [c|]; simpl.
  - split; intros _; by eexists.
  - split; intros [? H]; discriminate.
Qed.

(** A process whose command line is [None] and which has no row gets
    none from [update_processes], whether its pid is new ([_add_row]
    raises [TypeError]) or already tracked ([update_cell] raises on the
    missing row); its pid is tracked afterwards all the same. *)
Theorem update_processes_no_command_no_row (t : ProcessTable) (ps : list ProcessSnapshot)
    (T : DataTable) (p : ProcessSnapshot)
    (Hnodup : NoDup (pid <$> ps)) (Hps : p ∈ ps)
    (Hcmd : command_line p = None) (Hnone : T !! pid p = None) :
  apply_ops T (fst (update_processes t ps)) !! pid p = None /\
  pid p ∈ current_pids (snd (update_processes t ps)).
Proof.
  split.
  - rewrite update_processes_at_pid by done.
    destruct (format_bytes_ok (memory_rss p)) as [rss Hrss].
    unfold op_of. case_decide; simpl; unfold table_update_row, table_add_row.
    + by rewrite Hnone.
    + unfold render_row. rewrite Hrss. simpl. by rewrite Hcmd.
  - simpl. rewrite elem_of_list_to_set, list_elem_of_fmap. exists p. split; [done|].
    assert (Hp : ps ≡ₚ sort_processes t ps) by apply py_sorted_perm.
    by rewrite <- Hp.
Qed.

Lemma update_processes_no_command_no_row_witness :
  let t := ProcessTable_init in
  let ps := [named_proc 9 "bob" "vim"; sample_proc 7 "root"] in
  let T : DataTable := ∅ in
  NoDup (pid <$> ps) /\ sample_proc 7 "root" ∈ ps /\
  command_line (sample_proc 7 "root") = None /\ T !! pid (sample_proc 7 "root") = None /\
  (apply_ops T (fst (update_processes t ps)) !! pid (sample_proc 7 "root") = None /\
   pid (sample_proc 7 "root") ∈ current_pids (snd (update_processes t ps))).
Proof.
  intros t ps T.
  assert (H1 : NoDup (pid <$> ps)) by (apply (bool_decide_unpack _); vm_compute; reflexivity).
  assert (H2 : sample_proc 7 "root" ∈ ps) by (subst ps; apply elem_of_cons; right; by left).
  assert (H3 : command_line (sample_proc 7 "root") = None) by reflexivity.
  assert (H4 : T !! pid (sample_proc 7 "root") = None) by reflexivity.
  split_and!; try assumption.
  all: apply (update_processes_no_command_no_row t ps T _ H1 H2 H3 H4).
Defined.

(** A tracked process whose command line became [None] keeps its old
    Command cell: [_update_row] sets the first eight cells, then
    [proc.command_line[:50]] raises and the exception is swallowed. *)
Theorem update_row_keeps_stale_command (t : ProcessTable) (ps : list ProcessSnapshot)
    (T : DataTable) (p : ProcessSnapshot) (r : Row)
    (Hnodup : NoDup (pid <$> ps)) (Hps : p ∈ ps) (Htracked : pid p ∈ current_pids t)
    (Hcmd : command_line p = None) (Hrow : T !! pid p = Some r) :
  exists rss, format_bytes (memory_rss p) = Ok rss /\
  apply_ops T (fst (update_processes t ps)) !! pid p
  = Some {| c_pid := str_Z (pid p); c_user := slice (username p) 10;
            c_nice := str_Z (nice p); c_status := status p;
            c_cpu := fmt_5_1f (PFloat (cpu_percent p));
            c_mem := fmt_5_1f (PFloat (memory_percent p));
            c_rss := rss; c_threads := str_Z (threads p); c_command := c_command r |}.
Proof.
  destruct (format_bytes_ok (memory_rss p)) as [rss Hrss].
  exists rss. split; [done|].
  rewrite update_processes_at_pid by done.
  unfold op_of. rewrite decide_True by done. simpl. unfold table_update_row.
  rewrite Hrow, Hrss, Hcmd. simpl. by rewrite lookup_insert_eq.
Qed.

Lemma update_row_keeps_stale_command_witness :
  let t := {| current_pids := {[7]}; sort_key := PID; sort_reverse := false |} in
  let ps := [sample_proc 7 "root"] in
  let r := render_row (named_proc 7 "root" "init") in
  let T : DataTable := <[7 := blank_row]> ∅ in
  NoDup (pid <$> ps) /\ sample_proc 7 "root" ∈ ps /\
  pid (sample_proc 7 "root") ∈ current_pids t /\
  command_line (sample_proc 7 "root") = None /\ T !! pid (sample_proc 7 "root") = Some blank_row /\
  (exists rss, format_bytes (memory_rss (sample_proc 7 "root")) = Ok rss /\
   apply_ops T (fst (update_processes t ps)) !! pid (sample_proc 7 "root")
   = Some {| c_pid := str_Z (pid (sample_proc 7 "root"));
             c_user := slice (username (sample_proc 7 "root")) 10;
             c_nice := str_Z (nice (sample_proc 7 "root"));
             c_status := status (sample_proc 7 "root");
             c_cpu := fmt_5_1f (PFloat (cpu_percent (sample_proc 7 "root")));
             c_mem := fmt_5_1f (PFloat (memory_percent (sample_proc 7 "root")));
             c_rss := rss; c_threads := str_Z (threads (sample_proc 7 "root"));
             c_command := c_command blank_row |}).
Proof.
  intros t ps r T.
  assert (H1 : NoDup (pid <$> ps)) by (apply (bool_decide_unpack _); vm_compute; reflexivity).
  assert (H2 : sample_proc 7 "root" ∈ ps) by (subst ps; by left).
  assert (H3 : pid (sample_proc 7 "root") ∈ current_pids t) by (simpl; set_solver).
  assert (H4 : command_line (sample_proc 7 "root") = None) by reflexivity.
  assert (H5 : T !! pid (sample_proc 7 "root") = Some blank_row) by reflexivity.
  split_and!; try assumption.
  exact (update_row_keeps_stale_command t ps T _ blank_row H1 H2 H3 H4 H5).
Defined.

(* ================================================================== *)
(** * [HeaderStats] *)

Lemma Qfloor_unique (x : Q) (z : Z) :
  (inject_Z z <= x)%Q -> (x < inject_Z (z + 1))%Q -> Qfloor x = z.
Proof.
  intros H1 H2.
  assert (A : z < Qfloor x + 1).
  { rewrite Zlt_Qlt. eapply Qle_lt_trans; [exact H1|apply Qlt_floor]. }
  assert (B : Qfloor x < z + 1).
  { rewrite Zlt_Qlt. eapply Qle_lt_trans; [apply Qfloor_le|exact H2]. }
  lia.
Qed.

Lemma Qfloor_comp (x y : Q) : (x == y)%Q -> Qfloor x = Qfloor y.
Proof.
  intros H. apply Z.le_antisymm; apply Qfloor_resp_le; rewrite H; apply Qle_refl.
Qed.

Lemma Qfloor_frac (u : Q) :
  (0 <= u - inject_Z (Qfloor u))%Q /\ (u - inject_Z (Qfloor u) < 1)%Q.
Proof.
  pose proof (Qfloor_le u). pose proof (Qlt_floor u).
  rewrite inject_Z_plus in H0. change (inject_Z 1) with 1%Q in H0. split; lra.
Qed.

Lemma Qfloor_div (u : Q) (k : Z) : 0 < k -> Qfloor (u / inject_Z k) = Qfloor u / k.
Proof.
  intros Hk. set (n := Qfloor u). destruct (Qfloor_frac u) as [F0 F1]. fold n in F0, F1.
  assert (Hkq : (0 < inject_Z k)%Q) by (change 0%Q with (inject_Z 0); by rewrite <- Zlt_Qlt).
  pose proof (Z.div_mod n k ltac:(lia)) as Hdm.
  pose proof (Z.mod_pos_bound n k Hk) as Hmb.
  apply Qfloor_unique.
  - apply Qle_shift_div_l; [exact Hkq|]. rewrite <- inject_Z_mult.
    assert (inject_Z (n / k * k) <= inject_Z n)%Q by (rewrite <- Zle_Qle; lia). lra.
  - apply Qlt_shift_div_r; [exact Hkq|]. rewrite <- inject_Z_mult.
    assert (inject_Z (n + 1) <= inject_Z ((n / k + 1) * k))%Q by (rewrite <- Zle_Qle; lia).
    rewrite inject_Z_plus in H. change (inject_Z 1) with 1%Q in H. lra.
Qed.

(** [x % k] for a positive integer [k]: the integer part of [x] modulo [k]
    plus the fractional part of [x]. *)
Lemma py_mod_int (u : Q) (k : Z) :
  0 < k ->
  (py_mod u (inject_Z k) == inject_Z (Qfloor u mod k) + (u - inject_Z (Qfloor u)))%Q.
Proof.
  intros Hk. unfold py_mod, py_floordiv. rewrite Qfloor_div by done.
  rewrite Z.mod_eq by lia. unfold Z.sub. rewrite inject_Z_plus, inject_Z_opp, inject_Z_mult. ring.
Qed.

Lemma Qfloor_py_mod (u : Q) (k : Z) :
  0 < k -> Qfloor (py_mod u (inject_Z k)) = Qfloor u mod k.
Proof.
  intros Hk. rewrite (Qfloor_comp _ _ (py_mod_int u k Hk)).
  destruct (Qfloor_frac u) as [F0 F1].
  apply Qfloor_unique; rewrite ?inject_Z_plus; change (inject_Z 1) with 1%Q; lra.
Qed.

Lemma py_mod_nonneg (u : Q) (k : Z) : 0 < k -> (0 <= py_mod u (inject_Z k))%Q.
Proof.
  intros Hk. rewrite (py_mod_int u k Hk). destruct (Qfloor_frac u) as [F0 F1].
  assert (0 <= inject_Z (Qfloor u mod k))%Q.
  { change 0%Q with (inject_Z 0). rewrite <- Zle_Qle.
    pose proof (Z.mod_pos_bound (Qfloor u) k Hk). lia. }
  lra.
Qed.

Lemma py_int_Z (z : Z) : py_int (inject_Z z) = z.
Proof.
  unfold py_int. destruct (Qlt_le_dec (inject_Z z) 0).
  - rewrite <- inject_Z_opp, Qfloor_Z. lia.
  - apply Qfloor_Z.
Qed.

Lemma py_int_nonneg (x : Q) : (0 <= x)%Q -> py_int x = Qfloor x.
Proof.
  intros H. unfold py_int. destruct (Qlt_le_dec x 0); [lra|done].
Qed.

Lemma uptime_fields_eq (u : Q) :
  uptime_fields u
  = (Qfloor u / 86400, Qfloor u mod 86400 / 3600, Qfloor u mod 3600 / 60, Qfloor u mod 60).
Proof.
  unfold uptime_fields, py_floordiv.
  change 86400%Q with (inject_Z 86400). change 3600%Q with (inject_Z 3600).
  change 60%Q with (inject_Z 60).
  rewrite !py_int_Z, !Qfloor_div, !Qfloor_py_mod by lia.
  rewrite py_int_nonneg by (apply (py_mod_nonneg u 60); lia).
  rewrite Qfloor_py_mod by lia. reflexivity.
Qed.

Lemma Qfloor_ge_int (u : Q) (z : Z) : z <= Qfloor u <-> (inject_Z z <= u)%Q.
Proof.
  split; intros H.
  - eapply Qle_trans; [|apply Qfloor_le]. by rewrite <- Zle_Qle.
  - rewrite <- (Qfloor_Z z). by apply Qfloor_resp_le.
Qed.

(** The uptime of [_get_mem_info] is split into days, hours, minutes and
    seconds that add up to the whole seconds of the uptime, with hours,
    minutes and seconds in range, whatever the uptime; the day count is
    positive, so that the ["N days, "] prefix is shown, exactly from one
    day of uptime on. *)
Theorem uptime_fields_decompose (uptime : Q) :
  let '(days, hours, minutes, seconds) := uptime_fields uptime in
  0 <= hours < 24 /\ 0 <= minutes < 60 /\ 0 <= seconds < 60 /\
  days * 86400 + hours * 3600 + minutes * 60 + seconds = Qfloor uptime /\
  (0 < days <-> (86400 <= uptime)%Q).
Proof.
  rewrite uptime_fields_eq. set (n := Qfloor uptime).
  pose proof (Z.mod_pos_bound n 86400 ltac:(lia)).
  pose proof (Z.mod_pos_bound n 3600 ltac:(lia)).
  pose proof (Z.mod_pos_bound n 60 ltac:(lia)).
  split_and!; try (apply Z.div_pos; lia); try (apply Z.div_lt_upper_bound; lia); try lia.
  - pose proof (Z.div_mod n 86400 ltac:(lia)).
    pose proof (Z.div_mod (n mod 86400) 3600 ltac:(lia)).
    pose proof (Z.div_mod n 3600 ltac:(lia)).
    pose proof (Z.div_mod (n mod 3600) 60 ltac:(lia)).
    pose proof (Z.div_mod n 60 ltac:(lia)).
    assert (n mod 86400 mod 3600 = n mod 3600).
    { rewrite <- (Z.mod_mod_divide n 86400 3600); [done|]. by exists 24. }
    assert (n mod 3600 mod 60 = n mod 60).
    { rewrite <- (Z.mod_mod_divide n 3600 60); [done|]. by exists 60. }
    lia.
  - rewrite <- (Qfloor_ge_int uptime 86400). fold n.
    split; intros Hd.
    + destruct (Z_lt_le_dec n 86400); [|done].
      assert (n / 86400 < 1) by (apply Z.div_lt_upper_bound; lia). lia.
    + apply Z.div_str_pos. lia.
Qed.




(** A CPU or memory bar of [HeaderStats]: for a usage that is not
    negative it has 20 cells; it is full from 100 % on and empty below 5 %. *)
Theorem usage_bar_cells (usage : Q) (Husage : (0 <= usage)%Q) :
  length (bar (usage_bar_len usage)) = 20%nat /\
  ((100 <= usage)%Q -> bar (usage_bar_len usage) = repeat Filled 20) /\
  ((usage < 5)%Q -> bar (usage_bar_len usage) = repeat Unfilled 20).
Proof.
  unfold usage_bar_len.
  assert (H5 : (0 < 5)%Q) by (unfold Qlt; simpl; lia).
  rewrite py_int_nonneg by (apply Qle_shift_div_l; [exact H5|]; lra).
  assert (Hm : 0 <= Qfloor (usage / 5)).
  { apply Qfloor_ge_int. apply Qle_shift_div_l; [exact H5|]. change (inject_Z 0) with 0%Q. lra. }
  split_and!.
  - unfold bar. rewrite length_app, !repeat_length. lia.
  - intros H100. assert (Hge : 20 <= Qfloor (usage / 5)).
    { apply Qfloor_ge_int. apply Qle_shift_div_l; [exact H5|]. change (inject_Z 20) with 20%Q. lra. }
    rewrite Z.min_r by lia. reflexivity.
  - intros Hlt. assert (Hlt1 : Qfloor (usage / 5) < 1).
    { rewrite Zlt_Qlt. eapply Qle_lt_trans; [apply Qfloor_le|].
      apply Qlt_shift_div_r; [exact H5|]. change (inject_Z 1) with 1%Q. lra. }
    replace (Z.min (Qfloor (usage / 5)) 20) with 0 by lia. reflexivity.
Qed.

Lemma usage_bar_cells_witness :
  (0 <= 42)%Q /\
  (length (bar (usage_bar_len 42)) = 20%nat /\
   ((100 <= 42)%Q -> bar (usage_bar_len 42) = repeat Filled 20) /\
   ((42 < 5)%Q -> bar (usage_bar_len 42) = repeat Unfilled 20)).
Proof.
  assert (H : (0 <= 42)%Q) by (unfold Qle; simpl; lia).
  split; [exact H|]. exact (usage_bar_cells 42 H).
Defined.

(** Without swap ([swap_total] not positive) the swap bar is empty, 20
    dim cells, whatever [swap_percent] holds. *)
Theorem swap_bar_empty_without_swap (swap_total : Z) (swap_percent : Q)
    (Hswap : swap_total <= 0) :
  bar (swap_bar_len swap_total swap_percent) = repeat Unfilled 20.
Proof.
  unfold swap_bar_len. destruct (Z.ltb_spec 0 swap_total); [lia|]. reflexivity.
Qed.

Lemma swap_bar_empty_without_swap_witness :
  0 <= 0 /\ bar (swap_bar_len 0 (250 # 1)) = repeat Unfilled 20.
Proof.
  assert (H : 0 <= 0) by lia. split; [exact H|].
  exact (swap_bar_empty_without_swap 0 (250 # 1) H).
Defined.

(* ================================================================== *)
(** * The monitor: cycles, poll rate and lifecycle *)

(** [_collect_processes] as a whole: one exception other than
    [NoSuchProcess], [AccessDenied] and [ZombieProcess] anywhere aborts the
    cycle; otherwise the result is the snapshots of the processes psutil
    could read, in enumeration order. *)
Theorem collect_processes_outcome (qs : list ProcQuery) :
  collect_processes qs
  = if has_other qs then Raise EOther else Ok (build_snapshot <$> ok_infos qs).
Proof.
  induction qs as [|[info|[e|]] qs IH]; simpl; [done| |done|done].
  rewrite IH. by destruct (has_other qs).
Qed.

Lemma collect_processes_raise_other (qs : list ProcQuery) :
  has_other qs = true -> collect_processes qs = Raise EOther.
Proof.
  induction qs as [|[info|[e|]] qs IH]; simpl; intros H; try done.
  - by rewrite IH.
  - by apply IH.
Qed.

Lemma poll_iteration_fields' (r : Readings) (st : SystemMonitor) :
  stop_event (poll_iteration r st) = stop_event st /\
  poll_rate_ (poll_iteration r st) = poll_rate_ st /\
  thread (poll_iteration r st) = thread st /\
  alive (poll_iteration r st) = alive st /\
  next_tid (poll_iteration r st) = next_tid st.
Proof.
  unfold poll_iteration, collect_snapshot. simpl.
  destruct (collect_processes (r_queries r)); simpl; auto.
Qed.

(** A cycle that hits such an exception publishes nothing, yet the CPU
    sample taken at its start stays in the history. *)
Theorem poll_iteration_other_error (r : Readings) (st : SystemMonitor)
    (Hother : has_other (r_queries r) = true) :
  queue (poll_iteration r st) = queue st /\
  get_cpu_history (poll_iteration r st)
  = deque_append HISTORY_MAXLEN (cpu_history st) (r_cpu_percents r).
Proof.
  unfold poll_iteration, collect_snapshot. simpl.
  rewrite (collect_processes_raise_other _ Hother). simpl. done.
Qed.

Lemma poll_iteration_other_error_witness :
  let r := mkReadings [(50 # 1)] 0 0 0 0 0 0 (0, 0, 0)%Q 0 0
             [QOk (sample_info 1); QErr EOther] in
  has_other (r_queries r) = true /\
  (queue (poll_iteration r (SystemMonitor_init [] 2)) = queue (SystemMonitor_init [] 2) /\
   get_cpu_history (poll_iteration r (SystemMonitor_init [] 2))
   = deque_append HISTORY_MAXLEN (cpu_history (SystemMonitor_init [] 2)) (r_cpu_percents r)).
Proof.
  intros r. assert (H : has_other (r_queries r) = true) by reflexivity.
  split; [exact H|]. exact (poll_iteration_other_error r _ H).
Defined.

Lemma deque_append_last {A} (h : list A) (x : A) :
  last (deque_append HISTORY_MAXLEN h x) = Some x.
Proof.
  unfold deque_append. destruct (Nat.ltb_spec HISTORY_MAXLEN (length (h ++ [x]))) as [H|H].
  - rewrite length_app in H. simpl in H.
    rewrite drop_app_le by (unfold HISTORY_MAXLEN in H; lia). apply last_snoc.
  - apply last_snoc.
Qed.

(** The newest entry of [get_cpu_history] after a cycle is the per-core
    list of the snapshot that cycle published. *)
Theorem collect_snapshot_history_newest (r : Readings) (st : SystemMonitor)
    (s : SystemSnapshot) (Hok : snd (collect_snapshot r st) = Ok s) :
  last (get_cpu_history (fst (collect_snapshot r st))) = Some (cpu_percent_per_core s).
Proof.
  unfold collect_snapshot in *. simpl in *.
  destruct (collect_processes (r_queries r)); simpl in Hok; [|discriminate].
  injection Hok as <-. simpl. apply deque_append_last.
Qed.

Lemma collect_snapshot_history_newest_witness :
  let r := mkReadings [(50 # 1); (25 # 1)] 0 0 0 0 0 0 (0, 0, 0)%Q 0 0 [] in
  let s := mkSystemSnapshot [(50 # 1); (25 # 1)] 0 0 0 0 0 0 (0, 0, 0)%Q (0 - 0)%Q [] in
  snd (collect_snapshot r (SystemMonitor_init [] 2)) = Ok s /\
  last (get_cpu_history (fst (collect_snapshot r (SystemMonitor_init [] 2))))
  = Some (cpu_percent_per_core s).
Proof.
  intros r s. assert (H : snd (collect_snapshot r (SystemMonitor_init [] 2)) = Ok s)
    by reflexivity.
  split; [exact H|]. exact (collect_snapshot_history_newest r _ s H).
Defined.

Lemma poll_loop_waits (rs : list Readings) (st : SystemMonitor) :
  stop_event st = false ->
  snd (poll_loop rs st) = repeat (poll_rate_ st) (length rs).
Proof.
  revert st. induction rs as [|r rs IH]; intros st Hs; simpl; [done|].
  rewrite Hs. destruct (poll_iteration_fields' r st) as (H1 & H2 & _).
  destruct (poll_loop rs (poll_iteration r st)) as [st2 waits] eqn:E. simpl.
  rewrite H2. f_equal. rewrite <- H2. change waits with (snd (st2, waits)).
  rewrite <- E. apply IH. by rewrite H1.
Qed.

(** After the [poll_rate] setter, [_poll_loop] runs one cycle per reading,
    failed cycles included, and waits the clamped rate after each, never
    less than 0.1 s. *)
Theorem poll_loop_waits_after_setter (rs : list Readings) (st : SystemMonitor) (v : Q)
    (Hclear : stop_event st = false) :
  snd (poll_loop rs (set_poll_rate st v)) = repeat (py_max (1#10) v) (length rs) /\
  (1#10 <= py_max (1#10) v)%Q.
Proof.
  split.
  - apply poll_loop_waits. exact Hclear.
  - unfold py_max. destruct (Qlt_le_dec (1#10) v) as [H|H]; [lra|apply Qle_refl].
Qed.

Lemma poll_loop_waits_after_setter_witness :
  stop_event (SystemMonitor_init [] 2) = false /\
  (snd (poll_loop [empty_readings; empty_readings] (set_poll_rate (SystemMonitor_init [] 2) (1#100)))
   = repeat (py_max (1#10) (1#100)) (length [empty_readings; empty_readings]) /\
   (1#10 <= py_max (1#10) (1#100))%Q).
Proof.
  assert (H : stop_event (SystemMonitor_init [] 2) = false) by reflexivity.
  split; [exact H|]. exact (poll_loop_waits_after_setter _ _ (1#100) H).
Defined.

(** [start] and [stop]: after [start] the monitor runs and a second
    [start] does nothing; after [stop] it does not run, whether the join
    succeeded or timed out, and the stop event is set. *)
Theorem start_stop_is_running (st : SystemMonitor) (joined : bool) :
  is_running (start st) = true /\ start (start st) = start st /\
  is_running (stop joined st) = false /\ stop_event (stop joined st) = true.
Proof.
  assert (H1 : is_running (start st) = true).
  { unfold start. destruct (is_running st) eqn:E; [exact E|].
    unfold is_running. simpl. apply bool_decide_eq_true. apply elem_of_cons. by left. }
  split_and!; [exact H1| |unfold stop; by destruct (thread st)..].
  unfold start at 1. by rewrite H1.
Qed.

(** Thread ids are handed out in increasing order: every live thread and
    [self._thread] have ids below [next_tid]. *)
Definition tids_below (st : SystemMonitor) : Prop :=
  (forall t, t ∈ alive st -> (t < next_tid st)%nat) /\
  (forall t, thread st = Some t -> (t < next_tid st)%nat).

Lemma monitor_step_tids (st st' : SystemMonitor) :
  tids_below st -> monitor_step st st' -> tids_below st'.
Proof.
  intros [Ha Ht] Hs. unfold tids_below.
  destruct Hs as [st|joined st|v st|r st|t st _ _].
  - unfold start. destruct (is_running st); [by split|]. split; simpl.
    + intros t [->|Hin]%elem_of_cons; [lia|]. specialize (Ha t Hin). lia.
    + intros t [= <-]. lia.
  - unfold stop. destruct (thread st) as [u|] eqn:E; split; simpl; try done.
    destruct joined; [|done]. intros t [_ Hin]%list_elem_of_filter. by apply Ha.
  - by split.
  - destruct (poll_iteration_fields' r st) as (_ & _ & -> & -> & ->). by split.
  - split; simpl; [|done]. intros u [_ Hin]%list_elem_of_filter. by apply Ha.
Qed.

Lemma reachable_tids (q : list SystemSnapshot) (rate : Q) (st : SystemMonitor) :
  monitor_reachable q rate st -> tids_below st.
Proof.
  intros Hr. assert (H0 : tids_below (SystemMonitor_init q rate)).
  { split; simpl; [intros t Hin; by apply elem_of_nil in Hin|done]. }
  unfold monitor_reachable in Hr. revert H0.
  induction Hr as [x|x y z Hxy Hyz IH]; intros Hx; [done|].
  apply IH. by apply (monitor_step_tids x).
Qed.

(** [start] after a [stop] whose join timed out clears the stop event and
    starts a second worker while the first is still alive: two workers
    then poll and publish into the same queue. *)
Theorem restart_after_timed_out_stop (q : list SystemSnapshot) (rate : Q) (st : SystemMonitor)
    (Hr : monitor_reachable q rate st) (Hrun : is_running st = true) :
  let st' := start (stop false st) in
  monitor_reachable q rate st' /\ stop_event st' = false /\ is_running st' = true /\
  exists t t', thread st = Some t /\ thread st' = Some t' /\ t <> t' /\
               t ∈ alive st' /\ t' ∈ alive st'.
Proof.
  intros st'. destruct (reachable_tids q rate st Hr) as [_ Ht].
  unfold is_running in Hrun. destruct (thread st) as [t|] eqn:Eth; [|discriminate].
  apply bool_decide_eq_true in Hrun. specialize (Ht t eq_refl).
  assert (Hstop : is_running (stop false st) = false) by (unfold stop; by rewrite Eth).
  split_and!.
  - eapply rtc_r; [eapply rtc_r; [exact Hr|apply ms_stop]|apply ms_start].
  - subst st'. unfold start. by rewrite Hstop.
  - subst st'. unfold start. rewrite Hstop. unfold is_running. simpl.
    apply bool_decide_eq_true. apply elem_of_cons. by left.
  - exists t, (next_tid st). subst st'. unfold start. rewrite Hstop.
    unfold stop. rewrite Eth. simpl. split_and!; try done; [lia| |].
    + apply elem_of_cons. by right.
    + apply elem_of_cons. by left.
Qed.

Lemma restart_after_timed_out_stop_witness :
  monitor_reachable [] 2 (start (SystemMonitor_init [] 2)) /\
  is_running (start (SystemMonitor_init [] 2)) = true /\
  (let st' := start (stop false (start (SystemMonitor_init [] 2))) in
   monitor_reachable [] 2 st' /\ stop_event st' = false /\ is_running st' = true /\
   exists t t', thread (start (SystemMonitor_init [] 2)) = Some t /\ thread st' = Some t' /\
                t <> t' /\ t ∈ alive st' /\ t' ∈ alive st').
Proof.
  assert (H1 : monitor_reachable [] 2 (start (SystemMonitor_init [] 2))).
  { eapply rtc_l; [apply ms_start|apply rtc_refl]. }
  assert (H2 : is_running (start (SystemMonitor_init [] 2)) = true) by reflexivity.
  split; [exact H1|]. split; [exact H2|].
  exact (restart_after_timed_out_stop [] 2 _ H1 H2).
Defined.

(* ================================================================== *)
(** * Sorting and reconciliation *)

Lemma key_lt_irrefl (a : KeyVal) : key_lt a a = false.
Proof.
  destruct (key_lt a a) eqn:E; [|done].
  pose proof (key_lt_asym a a E). congruence.
Qed.

Lemma sorted_insert_split {A} (key : A -> KeyVal) (reverse : bool) (x : A) (s : list A) :
  exists l1 l2, s = l1 ++ l2 /\ sorted_insert key reverse x s = l1 ++ x :: l2 /\
                Forall (fun y => precedes key reverse y x = true) l1.
Proof.
  induction s as [|y s IH]; simpl.
  - by exists [], [].
  - destruct (precedes key reverse y x) eqn:E.
    + destruct IH as (l1 & l2 & -> & -> & Hl1).
      exists (y :: l1), l2. split_and!; [done|done|by constructor].
    + by exists [], (y :: s).
Qed.

Lemma py_sorted_stable {A} (key : A -> KeyVal) (reverse : bool) (v : KeyVal) (l : list A) :
  filter (fun p => key p = v) (py_sorted key reverse l) = filter (fun p => key p = v) l.
Proof.
  induction l as [|x l IH]; simpl; [done|].
  destruct (sorted_insert_split key reverse x (py_sorted key reverse l))
    as (l1 & l2 & Hs & -> & Hl1).
  rewrite filter_app, filter_cons.
  assert (Hs' : filter (fun p => key p = v) (py_sorted key reverse l)
                = filter (fun p => key p = v) l1 ++ filter (fun p => key p = v) l2)
    by (rewrite Hs; apply filter_app).
  rewrite filter_cons, <- IH, Hs'.
  case_decide as Hx; [|done].
  assert (Hnil : filter (fun p => key p = v) l1 = []).
  { clear -Hl1 Hx. induction Hl1 as [|y l1 Hy Hl1 IH]; [done|].
    rewrite filter_cons, decide_False; [done|]. intros Hyv.
    unfold precedes in Hy. rewrite Hyv, <- Hx, key_lt_irrefl in Hy.
    by destruct reverse. }
  by rewrite Hnil.
Qed.

(** [sorted] is stable, also with [reverse=True]: processes with the same
    sort key value keep their order in the snapshot, e.g. processes of the
    same user under USER, whatever the case of their names. *)
Theorem sort_processes_stable (t : ProcessTable) (ps : list ProcessSnapshot) (v : KeyVal) :
  filter (fun p => key_func (sort_key t) p = v) (sort_processes t ps)
  = filter (fun p => key_func (sort_key t) p = v) ps.
Proof. apply py_sorted_stable. Qed.

(** Four presses of F6 from any state yield the four sort keys, each once,
    and bring back the key the table had, with that key's default
    direction; the tracked pids are untouched. *)
Theorem cycle_sort_four_presses (t : ProcessTable) :
  let t1 := fst (cycle_sort t) in
  let t2 := fst (cycle_sort t1) in
  let t3 := fst (cycle_sort t2) in
  let t4 := fst (cycle_sort t3) in
  NoDup [snd (cycle_sort t); snd (cycle_sort t1); snd (cycle_sort t2); snd (cycle_sort t3)] /\
  sort_key t4 = sort_key t /\ current_pids t4 = current_pids t /\
  sort_reverse t4 = bool_decide (sort_key t ∈ [CPU; MEM]).
Proof.
  destruct t as [c k r].
  destruct k; split_and!; try reflexivity.
  all: apply (bool_decide_unpack _); vm_compute; reflexivity.
Qed.

(** A second [update_processes] with the same processes removes and adds
    no row: it updates every row, in sorted order. *)
Theorem update_processes_repeat (t : ProcessTable) (ps : list ProcessSnapshot) :
  let t' := snd (update_processes t ps) in
  fst (update_processes t' ps) = UpdateRow <$> sort_processes t' ps.
Proof.
  intros t'. rewrite update_processes_ops.
  assert (HS : sort_processes t' ps = sort_processes t ps) by reflexivity.
  assert (HC : current_pids t' = list_to_set (pid <$> sort_processes t ps)) by reflexivity.
  rewrite HS, HC, difference_diag_L, elements_empty. simpl.
  apply list_fmap_ext. intros i p Hi. unfold op_of. rewrite decide_True; [done|].
  apply elem_of_list_to_set, list_elem_of_fmap. exists p. split; [done|].
  by eapply list_elem_of_lookup_2.
Qed.

(** An empty process list removes every row of the table (all of them
    tracked) and leaves nothing tracked. *)
Theorem update_processes_empty (t : ProcessTable) (T : DataTable)
    (Htracked : forall k, is_Some (T !! k) -> k ∈ current_pids t) :
  apply_ops T (fst (update_processes t [])) = ∅ /\
  current_pids (snd (update_processes t [])) = ∅.
Proof.
  split; [|reflexivity].
  rewrite update_processes_ops.
  assert (HS : sort_processes t [] = []) by reflexivity. rewrite HS. simpl.
  rewrite app_nil_r. apply map_eq. intros k. rewrite lookup_empty.
  destruct (decide (k ∈ current_pids t)) as [Hk|Hk].
  - apply apply_removals_in. rewrite elem_of_elements. set_solver.
  - rewrite apply_ops_other.
    + destruct (T !! k) eqn:E; [|done]. exfalso. apply Hk, Htracked. by eexists.
    + rewrite op_key_removals, elem_of_elements. set_solver.
Qed.

Lemma update_processes_empty_witness :
  let t := {| current_pids := {[7; 9]}; sort_key := CPU; sort_reverse := true |} in
  let T : DataTable := <[7 := blank_row]> ∅ in
  (forall k, is_Some (T !! k) -> k ∈ current_pids t) /\
  (apply_ops T (fst (update_processes t [])) = ∅ /\
   current_pids (snd (update_processes t [])) = ∅).
Proof.
  intros t T.
  assert (H : forall k, is_Some (T !! k) -> k ∈ current_pids t).
  { intros k. subst T t. simpl. rewrite lookup_insert_is_Some, lookup_empty.
    intros [<-|[_ [? Hk]]]; [set_solver|discriminate]. }
  split; [exact H|]. exact (update_processes_empty t T H).
Defined.

(** The pids of a cycle's snapshots are those psutil reported for the
    readable processes, in the same order, so distinct pids from psutil
    give the distinct pids [update_processes] relies on. *)
Theorem collect_processes_pids (qs : list ProcQuery) (ps : list ProcessSnapshot)
    (Hok : collect_processes qs = Ok ps) :
  pid <$> ps = info_pid <$> ok_infos qs.
Proof.
  revert ps Hok. induction qs as [|[info|[e|]] qs IH]; intros ps Hok; simpl in Hok.
  - by injection Hok as <-.
  - destruct (collect_processes qs) as [ps'|e] eqn:E; simpl in Hok; [|discriminate].
    injection Hok as <-. rewrite fmap_cons, (IH ps' eq_refl). reflexivity.
  - by apply IH.
  - discriminate.
Qed.

Lemma collect_processes_pids_witness :
  let qs := [QOk (sample_info 4); QErr (EPsutil ZombieProcess); QOk (sample_info 2)] in
  collect_processes qs = Ok [build_snapshot (sample_info 4); build_snapshot (sample_info 2)] /\
  pid <$> [build_snapshot (sample_info 4); build_snapshot (sample_info 2)]
  = info_pid <$> ok_infos qs.
Proof.
  intros qs.
  assert (H : collect_processes qs
              = Ok [build_snapshot (sample_info 4); build_snapshot (sample_info 2)])
    by reflexivity.
  split; [exact H|]. exact (collect_processes_pids qs _ H).
Defined.


